(** * GitHub Models provider: catalog cache and cooldown tracker

    A shallow embedding of [openhands/llm/github_models.py] together with
    the properties its specification states about it.

    Modelling decisions.
    - A model descriptor is the Python [dict] the catalog endpoint sends.
      The code reads two keys only, ['id'] and ['rate_limit_tier'], both
      strings in the catalog, so a descriptor is a finite map from string
      keys to string values.  A key may be absent: [model['id']] then
      raises [KeyError] and [model.get('rate_limit_tier')] yields [None].
    - The code's annotations promise a [list[dict[str, Any]]], but
      [response.json()] returns whatever the body decodes to: [None], a
      number, a string, an object, or an array whose elements need not be
      objects.  The code stores and returns such a value as it comes, and
      raises [TypeError] or [AttributeError] where it takes its length,
      iterates it, subscripts an element or calls [.get] on one.  A
      catalog, the array of descriptors, is one case of a body.
    - [time.time()] and [httpx.get] are the two doors to the outside.  The
      outside is a pair of oracles, [clock] and [network]: the n-th reading
      of the clock and the outcome of the n-th catalog request.  The
      environment [Env] counts how many readings and requests were made.
      Time stamps are integers (seconds), as in the unit tests.
    - Methods are computations in a state-and-exception monad [M St A] over
      the object they belong to.  A raised exception keeps the state
      reached so far, as in Python. *)

From stdpp Require Import base option list strings gmap fin_maps.
From Stdlib Require Import ZArith Lia.

Local Open Scope Z_scope.

(** ** Data model *)

(** [dict[str, Any]] restricted to the string-valued fields the code reads. *)
Abbreviation descriptor := (gmap string string).

(** [list[dict[str, Any]]]: the catalog, in the order of the response. *)
Abbreviation catalog := (list descriptor).

(** *** What a body can decode to *)

(** A JSON number as Python holds it: an [int], or a [float], which is
    [m * 2^e], not a number, or infinite. *)
Inductive number : Type :=
  | Int (n : Z)
  | Float (m e : Z)
  | NaN
  | Infinity (negative : bool).

(** The values that have no length and cannot be iterated. *)
Inductive scalar : Type :=
  | Boolean (b : bool)
  | Number (x : number).

(** The values inside a body that the code does not look into. *)
Unset Elimination Schemes.
Inductive json : Type :=
  | JNull
  | JScalar (x : scalar)
  | JString (s : string)
  | JArray (items : list json)
  | JObject (fields : list (string * json)).
Set Elimination Schemes.

(** A value that is not a [dict]. *)
Inductive nondict : Type :=
  | Null
  | Scalar (x : scalar)
  | Str (s : string)
  | Nested (items : list json).

(** An element of a body that is an array: a descriptor, or a value that
    is not a [dict]. *)
Inductive item : Type :=
  | Model (m : descriptor)
  | NotDict (v : nondict).

(** What [response.json()] returns when it is not [None]: a list, a dict
    (its fields in the order of the body), a string, or a value without
    length. *)
Inductive body : Type :=
  | Array (models : list item)
  | Object (fields : list (string * json))
  | Text (s : string)
  | Unsized (x : scalar).

(** A catalog as a body: the array of its descriptors. *)
Definition Catalog (models : catalog) : body := Array (Model <$> models).

(** The exceptions the module can meet. *)
Inductive exn : Type :=
  | KeyError (key : string)
  | TypeError
  | AttributeError
  | HTTPError
  | JSONDecodeError
  | OtherException.

Inductive result (A : Type) : Type :=
  | Ok (a : A)
  | Raise (e : exn).
Arguments Ok {A} a.
Arguments Raise {A} e.

(** What one [GET {base_url}/catalog/models] can lead to inside the [try]
    block of [get_available_models]. *)
Inductive response : Type :=
  | TransportError       (* httpx.get raises an httpx.HTTPError: network
                            error or timeout                              *)
  | OtherError           (* httpx.get raises an exception that is not an
                            httpx.HTTPError: httpx.InvalidURL for an
                            address it cannot parse, UnicodeEncodeError
                            for a key that is not ASCII                   *)
  | StatusError          (* raise_for_status raises: status is not 2xx    *)
  | DecodeError          (* response.json() raises: body is not JSON      *)
  | NullBody             (* response.json() returns None: body is null    *)
  | Body (models : body) (* response.json() returns the decoded body      *).

(** Readings of the clock and catalog requests made so far. *)
Record Env : Type := mkEnv {
  ticks : nat;
  fetches : nat
}.

(** One more reading of the clock; one more request sent. *)
Definition tick (e : Env) : Env :=
  {| ticks := S (ticks e); fetches := fetches e |}.
Definition request (e : Env) : Env :=
  {| ticks := ticks e; fetches := S (fetches e) |}.

(** [GitHubModelsProvider]: the attributes that change or are compared. *)
Record Provider : Type := mkProvider {
  api_key : string;
  _models_cache : option body;
  _cache_timestamp : option Z
}.

(** [GitHubModelsRateLimitHandler]. *)
Record Handler : Type := mkHandler {
  provider : Provider;
  _failed_models : gmap string Z
}.

(** [self._cache_ttl = 300] and [self._failure_timeout = 300]. *)
Definition _cache_ttl : Z := 300.
Definition _failure_timeout : Z := 300.

(** [GitHubModelsProvider.__init__] *)
Definition new_provider (key : string) : Provider :=
  {| api_key := key; _models_cache := None; _cache_timestamp := None |}.

(** [GitHubModelsRateLimitHandler.__init__] *)
Definition new_handler (p : Provider) : Handler :=
  {| provider := p; _failed_models := ∅ |}.

(** ** The monad *)

Definition M (St A : Type) : Type := St → Env → result A * St * Env.

Definition ret {St A} (a : A) : M St A := λ s e, (Ok a, s, e).

Definition raise {St A} (x : exn) : M St A := λ s e, (Raise x, s, e).

Definition bind {St A B} (c : M St A) (k : A → M St B) : M St B :=
  λ s e,
    match c s e with
    | (Ok a, s', e') => k a s' e'
    | (Raise x, s', e') => (Raise x, s', e')
    end.

Notation "x <~ c ;; k" := (bind c (λ x, k))
  (at level 100, c at next level, right associativity,
   format "'[v' x  <~  c  ;;  '/' k ']'").
Notation "c ;;; k" := (bind c (λ _, k))
  (at level 100, right associativity).

(** [try: body except ...: handler] *)
Definition try_except {St A} (body : M St A) (handler : exn → M St A) : M St A :=
  λ s e,
    match body s e with
    | (Ok a, s', e') => (Ok a, s', e')
    | (Raise x, s', e') => handler x s' e'
    end.

Definition get {St} : M St St := λ s e, (Ok s, s, e).
Definition put {St} (s' : St) : M St unit := λ _ e, (Ok tt, s', e).

(** A pure computation that may raise, run inside [M]. *)
Definition lift {St A} (r : result A) : M St A := λ s e, (r, s, e).

(** A method of the provider called through [self.provider]. *)
Definition on_provider {A} (c : M Provider A) : M Handler A :=
  λ h e,
    match c (provider h) e with
    | (r, p', e') =>
        (r, {| provider := p'; _failed_models := _failed_models h |}, e')
    end.

(** The result monad of pure code that may raise. *)
Definition rbind {A B} (r : result A) (k : A → result B) : result B :=
  match r with
  | Ok a => k a
  | Raise x => Raise x
  end.

(** ** Python primitives *)

(** [s[n:]] *)
Fixpoint slice_from (n : nat) (s : string) : string :=
  match n, s with
  | O, _ => s
  | S n', String _ s' => slice_from n' s'
  | S _, EmptyString => EmptyString
  end.

(** [s.startswith(p)] *)
Definition startswith (s p : string) : bool := String.prefix p s.

(** [len(models)] *)
Definition len (models : option body) : result nat :=
  match models with
  | Some (Array models) => Ok (length models)
  | Some (Object fields) => Ok (length fields)
  | Some (Text s) => Ok (String.length s)
  | Some (Unsized _) | None => Raise TypeError
  end.

(** The truth value of a body: the empty list, dict and string, [False] and
    zero are falsy. *)
Definition truthy (models : body) : bool :=
  match models with
  | Array [] | Object [] | Text EmptyString => false
  | Array (_ :: _) | Object (_ :: _) | Text (String _ _) => true
  | Unsized (Boolean b) => b
  | Unsized (Number (Int n)) => negb (n =? 0)
  | Unsized (Number (Float m _)) => negb (m =? 0)
  | Unsized (Number NaN) | Unsized (Number (Infinity _)) => true
  end.

(** [self._models_cache or []] *)
Definition or_empty (cache : option body) : body :=
  match cache with
  | Some models => if truthy models then models else Array []
  | None => Array []
  end.

(** The characters of a string, each a string of length one. *)
Fixpoint characters (s : string) : list string :=
  match s with
  | EmptyString => []
  | String c rest => String c EmptyString :: characters rest
  end.

(** [for model in models]: the elements of a list, the keys of a dict, the
    characters of a string. *)
Definition iterate (models : body) : result (list item) :=
  match models with
  | Array models => Ok models
  | Object fields => Ok ((λ field, NotDict (Str field.1)) <$> fields)
  | Text s => Ok ((λ c, NotDict (Str c)) <$> characters s)
  | Unsized _ => Raise TypeError
  end.

(** [model['id']] on a descriptor *)
Definition getitem (model : descriptor) (key : string) : result string :=
  match model !! key with
  | Some v => Ok v
  | None => Raise (KeyError key)
  end.

(** [current_model[7:] if current_model.startswith('github/') else
    current_model]: the catalog id behind a LiteLLM model name. *)
Definition strip_github (current_model : string) : string :=
  if startswith current_model "github/" then slice_from 7 current_model
  else current_model.

(** [f'github/{model["id"]}'] *)
Definition litellm_name (id : string) : string := "github/" +:+ id.

(** ** Tiers *)

(** [model.get('rate_limit_tier') == tier] *)
Definition in_tier (tier : string) (model : descriptor) : Prop :=
  model !! "rate_limit_tier" = Some tier.

#[global] Instance in_tier_dec tier model : Decision (in_tier tier model).
Proof. unfold in_tier. apply _. Defined.

(** A model whose tier is one of [tiers]. *)
Definition tier_among (tiers : list string) (model : descriptor) : Prop :=
  ∃ tier, in_tier tier model ∧ tier ∈ tiers.

#[global] Instance tier_among_dec tiers model :
  Decision (tier_among tiers model).
Proof.
  unfold tier_among, in_tier.
  destruct (model !! "rate_limit_tier") as [tier|].
  - destruct (decide (tier ∈ tiers)) as [Hin|Hout].
    + left. by exists tier.
    + right. intros (tier' & [= <-] & Hin). by apply Hout.
  - right. by intros (tier' & [=] & _).
Defined.

(** ** The specification's vocabulary *)

(** A descriptor that carries the field. *)
Definition has_field (key : string) (model : descriptor) : Prop :=
  is_Some (model !! key).

(** Catalogs in which every descriptor carries an id. *)
Definition identified (models : catalog) : Prop :=
  Forall (has_field "id") models.


(** The ids of the models of [tier] other than [current], in catalog order. *)
Definition other_ids_in_tier (current tier : string) (models : catalog)
  : list string :=
  filter (λ id, id ≠ current)
         (omap (λ model : descriptor, model !! "id")
               (filter (in_tier tier) models)).

(** The availability rule of the cooldown tracker, as the specification
    words it: no entry, or an entry older than the cooldown window. *)
Definition available_at (failed : gmap string Z) (now : Z) (model : string)
  : bool :=
  match failed !! model with
  | None => true
  | Some failed_at => bool_decide (now - failed_at > 300)
  end.

(** ** Scenarios *)

(** The catalog of the specification's fallback example. *)
Definition example_catalog : catalog := [
  {[ "id" := "openai/gpt-4.1"; "rate_limit_tier" := "high" ]};
  {[ "id" := "meta/llama-3.3-70b-instruct"; "rate_limit_tier" := "high" ]};
  {[ "id" := "mistral-ai/mistral-large-2411"; "rate_limit_tier" := "high" ]};
  {[ "id" := "openai/gpt-4o-mini"; "rate_limit_tier" := "low" ]} ]%string.

(** A catalog whose first model carries no tier. *)
Definition untiered_catalog : catalog := [
  {[ "id" := "openai/gpt-4.1" ]};
  {[ "id" := "openai/gpt-4o-mini"; "rate_limit_tier" := "low" ]} ]%string.

(** A catalog whose only descriptor carries no id. *)
Definition nameless_catalog : catalog := [
  {[ "name" := "OpenAI GPT-4.1"; "rate_limit_tier" := "high" ]} ]%string.

(** An endpoint that is down for the first request and serves [models] from
    the second request on. *)
Definition outage_then (models : catalog) : nat → response :=
  λ n, match n with O => TransportError | S _ => Body (Catalog models) end.

(** A clock that stands still and an endpoint that always serves [models]. *)
Definition frozen (now : Z) : nat → Z := λ _, now.
Definition serving (models : catalog) : nat → response :=
  λ _, Body (Catalog models).

(** An endpoint that is down. *)
Definition down : nat → response := λ _, TransportError.

(** The clock of the cooldown test: 0, then 100, then 301. *)
Definition test_clock : nat → Z :=
  λ n, match n with O => 0 | S O => 100 | S (S _) => 301 end.

(** A provider holding the example catalog, fetched at time 0. *)
Definition warm_provider : Provider :=
  {| api_key := "test-token";
     _models_cache := Some (Catalog example_catalog);
     _cache_timestamp := Some 0 |}.

(** A handler on which the llama model failed at time 0. *)
Definition cooling_handler : Handler :=
  {| provider := warm_provider;
     _failed_models := {[ "github/meta/llama-3.3-70b-instruct" := 0 ]} |}.

(** A provider and a handler just constructed, nothing read or sent yet. *)
Definition fresh_provider : Provider := new_provider "test-token".
Definition fresh_handler : Handler := new_handler fresh_provider.
Definition start : Env := {| ticks := 0; fetches := 0 |}.

(** ** The provider's address *)

(** [base_url.rstrip('/')] of [GitHubModelsProvider.__init__]: the trailing
    slashes go. *)
Fixpoint rstrip_slash (base_url : string) : string :=
  match base_url with
  | EmptyString => EmptyString
  | String c rest =>
      match rstrip_slash rest with
      | EmptyString =>
          if String.eqb (String c EmptyString) "/" then EmptyString
          else String c EmptyString
      | String c' rest' => String c (String c' rest')
      end
  end.

(** [f'{self.base_url}/catalog/models'], the address [get_available_models]
    asks, for a provider built with [base_url]. *)
Definition catalog_url (base_url : string) : string :=
  rstrip_slash base_url +:+ "/catalog/models".

(** A snapshot held has its time stamp. *)
Definition stamped (p : Provider) : Prop :=
  is_Some (_models_cache p) → is_Some (_cache_timestamp p).

(** ** LiteLLM configuration ([litellm_github_config.py]) *)

(** The values of the configuration dicts: a string, or the dict of
    strings under ['litellm_params']. *)
Inductive value : Type :=
  | VStr (s : string)
  | VDict (d : gmap string string).

#[global] Instance value_eq_dec : EqDecision value.
Proof. solve_decision. Defined.

(** An element of [litellm.model_list]: a model name (a [str]), as
    [get_supported_llm_models] reads them, or a configuration dict, as
    [configure_litellm_for_github] appends them. *)
Inductive element : Type :=
  | Name (s : string)
  | Config (c : gmap string value).

(** The dict [{'model': ..., 'api_base': ..., 'custom_llm_provider': ...}]. *)
Definition github_params (model : string) : value :=
  VDict {[ "model" := model;
           "api_base" := "https://models.github.ai/v1";
           "custom_llm_provider" := "github" ]}.

(** One entry of the table: [{'model_name': ..., 'litellm_params': ...}]. *)
Definition github_entry (model_name model : string) : gmap string value :=
  {[ "model_name" := VStr model_name; "litellm_params" := github_params model ]}.

(** [GITHUB_MODELS_CONFIG['model_list']] *)
Definition GITHUB_MODELS_CONFIG : list (gmap string value) := [
  github_entry "github/openai/gpt-4.1" "openai/gpt-4.1";
  github_entry "github/openai/gpt-4o" "openai/gpt-4o";
  github_entry "github/openai/o1" "openai/o1";
  github_entry "github/openai/o3" "openai/o3";
  github_entry "github/meta/llama-3.3-70b-instruct"
               "meta/llama-3.3-70b-instruct";
  github_entry "github/mistral-ai/mistral-large-2411"
               "mistral-ai/mistral-large-2411";
  github_entry "github/deepseek/deepseek-v3-0324" "deepseek/deepseek-v3-0324"
]%string.

(** [config[key]] *)
Definition getitem_config (config : gmap string value) (key : string)
  : result value :=
  match config !! key with
  | Some v => Ok v
  | None => Raise (KeyError key)
  end.

(** The loop of [get_github_model_config] over a table. *)
Fixpoint find_config (model_name : string) (table : list (gmap string value))
  : result (option value) :=
  match table with
  | [] => Ok None
  | config :: rest =>
      rbind (getitem_config config "model_name") (λ name,
        if bool_decide (name = VStr model_name) then
          rbind (getitem_config config "litellm_params") (λ params,
            Ok (Some params))
        else find_config model_name rest)
  end.

Definition get_github_model_config (model_name : string) : result value :=
  rbind (find_config model_name GITHUB_MODELS_CONFIG) (λ found,
    match found with
    | Some params => Ok params
    | None =>
        if startswith model_name "github/" then
          let actual_model := slice_from 7 model_name in
          Ok (github_params actual_model)
        else Ok (VDict ∅)
    end).

(** The [litellm] module as [configure_litellm_for_github] sees it:
    [model_list] is [None] when the module has no such attribute. *)
Record Litellm : Type := mkLitellm {
  model_list : option (list element);
  github_api_base : option string
}.

(** [any(m.get('model_name') == model_name for m in litellm.model_list)]:
    [None] when an element met before a match is not a dict, and [m.get]
    raises [AttributeError]. *)
Fixpoint any_named (model_name : value) (models : list element)
  : option bool :=
  match models with
  | [] => Some false
  | Name _ :: _ => None
  | Config m :: rest =>
      if bool_decide (m !! "model_name" = Some model_name) then Some true
      else any_named model_name rest
  end.

(** The [for model_config in ...] loop on a module that has a
    [model_list]: the list it leaves, and whether it ran to its end. *)
Fixpoint register_models (table : list (gmap string value))
    (models : list element) : bool * list element :=
  match table with
  | [] => (true, models)
  | model_config :: rest =>
      match model_config !! "model_name", model_config !! "litellm_params" with
      | Some model_name, Some _ =>
          match any_named model_name models with
          | Some true => register_models rest models
          | Some false => register_models rest (models ++ [Config model_config])
          | None => (false, models)
          end
      | _, _ => (false, models)
      end
  end.

(** The same loop on a module without a [model_list]: only the two
    subscripts are evaluated. *)
Definition subscripts_ok (table : list (gmap string value)) : bool :=
  forallb (λ model_config : gmap string value,
             bool_decide (is_Some (model_config !! "model_name")) &&
             bool_decide (is_Some (model_config !! "litellm_params")))
          table.

(** [configure_litellm_for_github]; the state is the [litellm] module,
    [None] when it cannot be imported. *)
Definition configure_litellm_for_github (litellm : option Litellm)
  : bool * option Litellm :=
  match litellm with
  | None => (false, None)
  | Some l =>
      match model_list l with
      | Some models =>
          match register_models GITHUB_MODELS_CONFIG models with
          | (true, models') =>
              (true, Some {| model_list := Some models';
                             github_api_base :=
                               Some "https://models.github.ai/v1" |})
          | (false, models') =>
              (false, Some {| model_list := Some models';
                              github_api_base := github_api_base l |})
          end
      | None =>
          if subscripts_ok GITHUB_MODELS_CONFIG then
            (true, Some {| model_list := None;
                           github_api_base :=
                             Some "https://models.github.ai/v1" |})
          else (false, Some l)
      end
  end.

(** The names under which the dicts of a list are registered. *)
Definition registered (models : list element) : list value :=
  omap (λ m, match m with
             | Config c => c !! "model_name"
             | Name _ => None
             end) models.

(** A list that holds configuration dicts only. *)
Definition all_configs (models : list element) : Prop :=
  Forall (λ m, match m with Config _ => True | Name _ => False end) models.

(** A configuration dict with the two keys the loop subscripts. *)
Definition keyed (model_config : gmap string value) : Prop :=
  is_Some (model_config !! "model_name") ∧
  is_Some (model_config !! "litellm_params").

(** ** The module's shared objects, with their identities *)

(** [get_rate_limit_handler] compares provider objects, and the class
    defines no [__eq__]: the comparison is one of identity.  Objects are
    numbered as they are built. *)
Module Singletons.

Record Globals : Type := mkGlobals {
  next_object : nat;
  (* the provider object: its identity and its attributes *)
  _github_provider : option (nat * Provider);
  (* the handler object: its identity, the identity of [self.provider],
     and [self._failed_models] *)
  _rate_limit_handler : option (nat * nat * gmap string Z)
}.

(** No object built yet, both globals [None]. *)
Definition initial : Globals :=
  {| next_object := 0; _github_provider := None; _rate_limit_handler := None |}.

Definition get_github_provider (key : string) (g : Globals)
  : (nat * Provider) * Globals :=
  let build :=
    let built := (next_object g, new_provider key) in
    (built, {| next_object := S (next_object g);
               _github_provider := Some built;
               _rate_limit_handler := _rate_limit_handler g |}) in
  match _github_provider g with
  | Some (id, p) => if String.eqb (api_key p) key then ((id, p), g) else build
  | None => build
  end.

Definition get_rate_limit_handler (key : string) (g : Globals)
  : (nat * nat * gmap string Z) * Globals :=
  match get_github_provider key g with
  | ((provider_id, _), g1) =>
      let build :=
        let built := (next_object g1, provider_id, ∅) in
        (built, {| next_object := S (next_object g1);
                   _github_provider := _github_provider g1;
                   _rate_limit_handler := Some built |}) in
      match _rate_limit_handler g1 with
      | Some (id, of_provider, failed) =>
          if Nat.eqb of_provider provider_id then ((id, of_provider, failed), g1)
          else build
      | None => build
      end
  end.

(** A provider and its handler in use, one failure recorded. *)
Definition in_use : Globals :=
  {| next_object := 2;
     _github_provider := Some (0%nat, new_provider "test-token");
     _rate_limit_handler :=
       Some (1%nat, 0%nat, {[ "github/openai/gpt-4.1" := 5 ]}) |}.

(** Every object in use was built: its number is below the next one. *)
Definition built (g : Globals) : Prop :=
  (∀ id p, _github_provider g = Some (id, p) → (id < next_object g)%nat) ∧
  (∀ id of_provider failed,
     _rate_limit_handler g = Some (id, of_provider, failed) →
     (id < next_object g)%nat ∧ (of_provider < next_object g)%nat).

End Singletons.

(** ** The provider *)

Section GitHubModels.

(** The outside: what the clock reads and what the endpoint answers. *)
Variable clock : nat → Z.
Variable network : nat → response.

(** [time.time()] *)
Definition time_time {St} : M St Z :=
  λ s e, (Ok (clock (ticks e)), s, tick e).

(** [httpx.get(...)], [response.raise_for_status()], [response.json()] *)
Definition httpx_get_json {St} : M St (option body) :=
  λ s e,
    match network (fetches e) with
    | TransportError | StatusError => (Raise HTTPError, s, request e)
    | OtherError => (Raise OtherException, s, request e)
    | DecodeError => (Raise JSONDecodeError, s, request e)
    | NullBody => (Ok None, s, request e)
    | Body models => (Ok (Some models), s, request e)
    end.

(** The condition of the cache hit: some snapshot, some time stamp, and
    an age below the time-to-live. *)
Definition cached (force_refresh : bool) (p : Provider) (current_time : Z)
  : option body :=
  match force_refresh, _models_cache p, _cache_timestamp p with
  | false, Some models, Some ts =>
      if bool_decide (current_time - ts < _cache_ttl) then Some models
      else None
  | _, _, _ => None
  end.

Definition get_available_models (force_refresh : bool) : M Provider body :=
  current_time <~ time_time ;;
  self <~ get ;;
  match cached force_refresh self current_time with
  | Some models => ret models
  | None =>
      try_except
        (models <~ httpx_get_json ;;
         put {| api_key := api_key self;
                _models_cache := models;
                _cache_timestamp := Some current_time |} ;;;
         (* the log line takes [len(models)], which raises on [None]:
            what is returned is a body *)
         lift (len models) ;;;
         match models with
         | Some models => ret models
         | None => raise TypeError
         end)
        (λ x,
           match x with
           | HTTPError =>
               self <~ get ;;
               ret (or_empty (_models_cache self))
           | _ => raise x
           end)
  end.

(** [[model for model in models if model.get('rate_limit_tier') == tier]]:
    [model.get] raises [AttributeError] on an element that is not a dict,
    so the elements kept are descriptors. *)
Fixpoint tier_models_of (tier : string) (models : list item)
  : result catalog :=
  match models with
  | [] => Ok []
  | Model model :: rest =>
      rbind (tier_models_of tier rest) (λ tier_models,
        Ok (if decide (in_tier tier model) then model :: tier_models
            else tier_models))
  | NotDict _ :: _ => Raise AttributeError
  end.

Definition get_models_by_tier (tier : string) : M Provider catalog :=
  models <~ get_available_models false ;;
  models <~ lift (iterate models) ;;
  lift (tier_models_of tier models).

(** The first loop of [get_fallback_models]: the first descriptor whose
    id is [github_model_id], [None] when the loop runs to its end.
    [model['id']] raises [TypeError] on an element that is not a dict. *)
Fixpoint find_model (github_model_id : string) (models : list item)
  : result (option descriptor) :=
  match models with
  | [] => Ok None
  | Model model :: rest =>
      rbind (getitem model "id") (λ id,
        if String.eqb id github_model_id then Ok (Some model)
        else find_model github_model_id rest)
  | NotDict _ :: _ => Raise TypeError
  end.

(** The second loop: the names of the tier's models, the current one
    left out. *)
Fixpoint other_models (github_model_id : string) (tier_models : catalog)
  : result (list string) :=
  match tier_models with
  | [] => Ok []
  | model :: rest =>
      rbind (getitem model "id") (λ id,
        if negb (String.eqb id github_model_id) then
          rbind (getitem model "id") (λ id',
            rbind (other_models github_model_id rest) (λ names,
              Ok (litellm_name id' :: names)))
        else other_models github_model_id rest)
  end.

(** [not current_model_info]: [None] and the empty dict are falsy. *)
Definition falsy (info : option descriptor) : bool :=
  match info with
  | None => true
  | Some model => bool_decide (model = ∅)
  end.

Definition get_fallback_models (current_model : string)
  : M Provider (list string) :=
  let github_model_id := strip_github current_model in
  models <~ get_available_models false ;;
  models <~ lift (iterate models) ;;
  current_model_info <~ lift (find_model github_model_id models) ;;
  match current_model_info with
  | Some info =>
      if falsy current_model_info then ret []
      else
        let tier := default "low" (info !! "rate_limit_tier") in
        tier_models <~ get_models_by_tier tier ;;
        lift (other_models github_model_id tier_models)
  | None => ret []
  end.

(** [[f'github/{model["id"]}' for model in models]] *)
Fixpoint litellm_names (models : list item) : result (list string) :=
  match models with
  | [] => Ok []
  | Model model :: rest =>
      rbind (getitem model "id") (λ id,
        rbind (litellm_names rest) (λ names,
          Ok (litellm_name id :: names)))
  | NotDict _ :: _ => Raise TypeError
  end.

Definition get_litellm_model_list : M Provider (list string) :=
  models <~ get_available_models false ;;
  models <~ lift (iterate models) ;;
  lift (litellm_names models).

Definition is_github_model (model : string) : bool :=
  startswith model "github/".

(** ** The rate limit handler *)

Definition is_model_available (model : string) : M Handler bool :=
  self <~ get ;;
  match _failed_models self !! model with
  | None => ret true
  | Some failed_at =>
      current_time <~ time_time ;;
      if bool_decide (current_time - failed_at > _failure_timeout) then
        put {| provider := provider self;
               _failed_models := delete model (_failed_models self) |} ;;;
        ret true
      else ret false
  end.

Definition mark_model_failed (model : string) : M Handler unit :=
  now <~ time_time ;;
  self <~ get ;;
  put {| provider := provider self;
         _failed_models := <[model := now]> (_failed_models self) |}.

(** The [for model in fallback_models] loop. *)
Fixpoint first_available (fallback_models : list string)
  : M Handler (option string) :=
  match fallback_models with
  | [] => ret None
  | model :: rest =>
      available <~ is_model_available model ;;
      if available then ret (Some model) else first_available rest
  end.

Definition get_next_available_model (current_model : string)
  : M Handler (option string) :=
  fallback_models <~ on_provider (get_fallback_models current_model) ;;
  first_available fallback_models.

(** ** Module level: the shared provider *)

(** [get_github_provider]; the state is the global [_github_provider]. *)
Definition get_github_provider (key : string) : M (option Provider) Provider :=
  g <~ get ;;
  match g with
  | Some p =>
      if String.eqb (api_key p) key then ret p
      else put (Some (new_provider key)) ;;; ret (new_provider key)
  | None => put (Some (new_provider key)) ;;; ret (new_provider key)
  end.

(** A method called on the object the global refers to. *)
Definition on_global {A} (p : Provider) (c : M Provider A)
  : M (option Provider) A :=
  λ _ e, match c p e with (r, p', e') => (r, Some p', e') end.

Definition get_github_models_for_litellm (key : string)
  : M (option Provider) (list string) :=
  try_except
    (p <~ get_github_provider key ;;
     on_global p get_litellm_model_list)
    (λ _, ret []).

(** ** Statements about runs *)





(** No candidate is a model of tier "low": the reading of "the default
    tier is not used to filter" for a current model without a tier. *)
Definition low_default_unused (models : catalog) (current_model : string)
    (p : Provider) (e : Env) : Prop :=
  ∀ names p' e',
    get_fallback_models current_model p e = (Ok names, p', e') →
    ∀ m id, m ∈ models → in_tier "low" m → m !! "id" = Some id →
            litellm_name id ∉ names.

(** Two calls in a row: one request in all, and the same answer twice. *)
Definition one_fetch_same_snapshot (p : Provider) (e : Env) : Prop :=
  match get_available_models false p e with
  | (r1, p1, e1) =>
      match get_available_models false p1 e1 with
      | (r2, _, e2) => fetches e2 = S (fetches e) ∧ r2 = r1
      end
  end.

(** Every model of the catalog served is in the answer of
    [get_models_by_tier] for some tier. *)
Definition tiers_cover_catalog (p : Provider) (e : Env) : Prop :=
  ∀ models p' e',
    get_available_models false p e = (Ok (Catalog models), p', e') →
    ∀ m, m ∈ models →
         ∃ tier tier_models p'' e'',
           get_models_by_tier tier p e = (Ok tier_models, p'', e'') ∧
           m ∈ tier_models.


(** The id of an element of the body, when it is a descriptor that
    carries one. *)
Definition id_of (model : item) : option string :=
  match model with
  | Model m => m !! "id"
  | NotDict _ => None
  end.

(** The list a freshly built provider owes to the one answer it gets: when
    the body is an array of descriptors that all carry an id, these ids in
    the order of the array, each behind the prefix; the empty list in every
    other case. *)
Definition names_of_response (r : response) : list string :=
  match r with
  | Body (Array models) =>
      match mapM id_of models with
      | Some ids => String.append "github/" <$> ids
      | None => []
      end
  | _ => []
  end.

(** * Properties *)

(** ** The catalog cache, case by case *)

Lemma get_available_models_hit force p e models :
  cached force p (clock (ticks e)) = Some models →
  get_available_models force p e = (Ok models, p, tick e).
Proof.
  intros Hc. unfold get_available_models, bind, time_time, get.
  simpl. by rewrite Hc.
Qed.

Lemma get_available_models_miss force p e :
  cached force p (clock (ticks e)) = None →
  get_available_models force p e =
    match network (fetches e) with
    | Body models =>
        (match models with
         | Unsized _ => Raise TypeError
         | Array _ | Object _ | Text _ => Ok models
         end,
         {| api_key := api_key p;
            _models_cache := Some models;
            _cache_timestamp := Some (clock (ticks e)) |},
         request (tick e))
    | NullBody =>
        (Raise TypeError,
         {| api_key := api_key p;
            _models_cache := None;
            _cache_timestamp := Some (clock (ticks e)) |},
         request (tick e))
    | DecodeError => (Raise JSONDecodeError, p, request (tick e))
    | OtherError => (Raise OtherException, p, request (tick e))
    | TransportError | StatusError =>
        (Ok (or_empty (_models_cache p)), p, request (tick e))
    end.
Proof.
  intros Hc. unfold get_available_models, bind, time_time, get.
  simpl. rewrite Hc.
  unfold try_except, bind, httpx_get_json, put, ret, lift, raise.
  simpl. by destruct (network (fetches e)) as [| | | | |[]].
Qed.

(** The look-up that fetches a catalog. *)
Lemma get_available_models_fetch force p e models :
  cached force p (clock (ticks e)) = None →
  network (fetches e) = Body (Catalog models) →
  get_available_models force p e =
    (Ok (Catalog models),
     {| api_key := api_key p;
        _models_cache := Some (Catalog models);
        _cache_timestamp := Some (clock (ticks e)) |},
     request (tick e)).
Proof.
  intros Hc Hbody. by rewrite (get_available_models_miss _ _ _ Hc), Hbody.
Qed.

(** ** The two loops of [get_fallback_models] *)

Lemma strip_github_litellm_name id : strip_github (litellm_name id) = id.
Proof.
  unfold strip_github.
  assert (startswith (litellm_name id) "github/" = true) as ->; [|done].
  vm_compute. by destruct id.
Qed.

Lemma find_model_first id models :
  identified models →
  find_model id (Model <$> models) =
    Ok (snd <$> list_find (λ m : descriptor, m !! "id" = Some id) models).
Proof.
  induction 1 as [|model rest [i Hi] _ IH]; [done|].
  cbn. unfold getitem. rewrite Hi. cbn.
  destruct (String.eqb_spec i id) as [->|Hne].
  - by rewrite decide_True.
  - rewrite decide_False by congruence. rewrite IH.
    by destruct (list_find _ rest) as [[? ?]|].
Qed.

Lemma other_models_names id models :
  identified models →
  other_models id models =
    Ok (litellm_name <$>
          filter (λ i, i ≠ id) (omap (λ m : descriptor, m !! "id") models)).
Proof.
  induction 1 as [|model rest [i Hi] _ IH]; [done|].
  cbn. unfold getitem. rewrite Hi. cbn. rewrite IH.
  destruct (String.eqb_spec i id) as [->|Hne]; cbn.
  - by rewrite decide_False by naive_solver.
  - by rewrite decide_True by done.
Qed.

Lemma has_id_filter (P : descriptor → Prop) `{!∀ m, Decision (P m)} models :
  identified models → identified (filter P models).
Proof.
  unfold identified. rewrite !Forall_forall. intros Hall m Hm.
  apply list_elem_of_filter in Hm as [_ Hm]. by apply Hall.
Qed.

(** What [get_models_by_tier] selects from a catalog. *)
Lemma tier_models_of_catalog tier (models : catalog) :
  tier_models_of tier (Model <$> models) = Ok (filter (in_tier tier) models).
Proof.
  induction models as [|model rest IH]; [done|].
  cbn [fmap list_fmap tier_models_of]. rewrite IH. cbn [rbind].
  destruct (decide (in_tier tier model)) as [Hin|Hout].
  - by rewrite filter_cons_True.
  - by rewrite filter_cons_False.
Qed.

Lemma get_models_by_tier_catalog tier p e models p' e' :
  get_available_models false p e = (Ok (Catalog models), p', e') →
  get_models_by_tier tier p e = (Ok (filter (in_tier tier) models), p', e').
Proof.
  intros Hserved. unfold get_models_by_tier, bind, lift.
  rewrite Hserved. cbn [iterate Catalog]. by rewrite tier_models_of_catalog.
Qed.

(** [get_fallback_models] when the current model is in the catalog: the
    first look-up serves [models], the look-up made by
    [get_models_by_tier] serves [models']. *)
Lemma get_fallback_models_found current_model p e models p1 e1 models' p2 e2
    i info :
  get_available_models false p e = (Ok (Catalog models), p1, e1) →
  get_available_models false p1 e1 = (Ok (Catalog models'), p2, e2) →
  identified models →
  identified models' →
  list_find (λ m : descriptor, m !! "id" = Some (strip_github current_model))
    models = Some (i, info) →
  get_fallback_models current_model p e =
    (Ok (litellm_name <$>
           other_ids_in_tier (strip_github current_model)
             (default "low" (info !! "rate_limit_tier")) models'),
     p2, e2).
Proof.
  intros H1 H2 Hid Hid' Hfind.
  unfold get_fallback_models.
  unfold bind at 1. rewrite H1.
  unfold bind at 1, lift at 1. cbn [iterate Catalog].
  unfold bind at 1, lift at 1. rewrite (find_model_first _ _ Hid), Hfind.
  cbn [fmap option_fmap option_map snd].
  apply list_find_Some in Hfind as (_ & Hcur & _).
  assert (falsy (Some info) = false) as ->.
  { cbn. apply bool_decide_eq_false. intros ->.
    by rewrite lookup_empty in Hcur. }
  unfold bind at 1. rewrite (get_models_by_tier_catalog _ _ _ _ _ _ H2).
  unfold lift. rewrite other_models_names by by apply has_id_filter.
  done.
Qed.

(** The unknown model: an empty list and no second look-up. *)
Lemma get_fallback_models_unknown current_model p e models p1 e1 :
  get_available_models false p e = (Ok (Catalog models), p1, e1) →
  identified models →
  list_find (λ m : descriptor, m !! "id" = Some (strip_github current_model))
    models = None →
  get_fallback_models current_model p e = (Ok [], p1, e1).
Proof.
  intros H1 Hid Hfind.
  unfold get_fallback_models.
  unfold bind at 1. rewrite H1.
  unfold bind at 1, lift at 1. cbn [iterate Catalog].
  unfold bind at 1, lift at 1. rewrite (find_model_first _ _ Hid), Hfind.
  done.
Qed.

(** ** Fallback candidates *)

(** What [other_ids_in_tier] lists: the ids, other than the current one, of
    the models of the catalog that are in the tier. *)
Lemma other_ids_in_tier_spec current tier (models : catalog) id :
  id ∈ other_ids_in_tier current tier models ↔
  id ≠ current ∧
  ∃ m, m ∈ models ∧ m !! "rate_limit_tier" = Some tier ∧ m !! "id" = Some id.
Proof.
  unfold other_ids_in_tier.
  rewrite list_elem_of_filter, list_elem_of_omap.
  split.
  - intros [Hne (m & [Htier Hm]%list_elem_of_filter & Hid)]. eauto.
  - intros [Hne (m & Hm & Htier & Hid)]. split; [done|].
    exists m. split; [|done]. by apply list_elem_of_filter.
Qed.

Lemma get_fallback_models_in_tier
    current tier i info models p e p1 e1 p2 e2 :
  get_available_models false p e = (Ok (Catalog models), p1, e1) →
  get_available_models false p1 e1 = (Ok (Catalog models), p2, e2) →
  identified models →
  list_find (λ m : descriptor, m !! "id" = Some current) models
    = Some (i, info) →
  info !! "rate_limit_tier" = Some tier →
  get_fallback_models (litellm_name current) p e =
    (Ok (litellm_name <$> other_ids_in_tier current tier models), p2, e2).
Proof.
  intros H1 H2 Hid Hfind Htier.
  rewrite <- (strip_github_litellm_name current) in Hfind.
  rewrite (get_fallback_models_found _ _ _ _ _ _ _ _ _ _ _
             H1 H2 Hid Hid Hfind).
  by rewrite Htier, strip_github_litellm_name.
Qed.

Lemma example_catalog_identified : identified example_catalog.
Proof.
  unfold identified. repeat (constructor; [by eexists|]). constructor.
Qed.

Lemma get_fallback_models_example p e p1 e1 p2 e2 :
  get_available_models false p e = (Ok (Catalog example_catalog), p1, e1) →
  get_available_models false p1 e1 = (Ok (Catalog example_catalog), p2, e2) →
  get_fallback_models "github/openai/gpt-4.1" p e =
    (Ok ["github/meta/llama-3.3-70b-instruct";
         "github/mistral-ai/mistral-large-2411"], p2, e2).
Proof.
  intros H1 H2.
  change "github/openai/gpt-4.1" with (litellm_name "openai/gpt-4.1").
  rewrite (get_fallback_models_in_tier "openai/gpt-4.1" "high" 0%nat
             {[ "id" := "openai/gpt-4.1"; "rate_limit_tier" := "high" ]}
             _ _ _ _ _ _ _ H1 H2); try done.
  apply example_catalog_identified.
Qed.

(** C1.  When the catalog served to [get_fallback_models] holds the
    current model (every descriptor carrying its id, the current model its
    tier), the call on the namespaced id returns exactly the ids of the
    other models of the current model's tier, each prefixed with
    [github/], in catalog order and without the current model.  On the
    catalog of the specification's example, the call on
    [github/openai/gpt-4.1] returns the llama and the mistral model, in
    this order. *)
Theorem get_fallback_models_same_tier :
  (∀ current tier i info models p e p1 e1 p2 e2,
     get_available_models false p e = (Ok (Catalog models), p1, e1) →
     get_available_models false p1 e1 = (Ok (Catalog models), p2, e2) →
     identified models →
     list_find (λ m : descriptor, m !! "id" = Some current) models
       = Some (i, info) →
     info !! "rate_limit_tier" = Some tier →
     get_fallback_models (litellm_name current) p e =
       (Ok (litellm_name <$> other_ids_in_tier current tier models), p2, e2))
  ∧
  (∀ p e p1 e1 p2 e2,
     get_available_models false p e = (Ok (Catalog example_catalog), p1, e1) →
     get_available_models false p1 e1 = (Ok (Catalog example_catalog), p2, e2) →
     get_fallback_models "github/openai/gpt-4.1" p e =
       (Ok ["github/meta/llama-3.3-70b-instruct";
            "github/mistral-ai/mistral-large-2411"], p2, e2)).
Proof.
  split.
  - apply get_fallback_models_in_tier.
  - apply get_fallback_models_example.
Qed.

(** C3 (as amended).  When the current model is in the catalog and its
    descriptor has no [rate_limit_tier] field, [get_fallback_models]
    filters with the default tier "low": it returns the ids of the other
    models whose tier is "low", prefixed with [github/], in catalog
    order. *)
Theorem get_fallback_models_default_tier
    current i info models p e p1 e1 p2 e2 :
  get_available_models false p e = (Ok (Catalog models), p1, e1) →
  get_available_models false p1 e1 = (Ok (Catalog models), p2, e2) →
  identified models →
  list_find (λ m : descriptor, m !! "id" = Some current) models
    = Some (i, info) →
  info !! "rate_limit_tier" = None →
  get_fallback_models (litellm_name current) p e =
    (Ok (litellm_name <$> other_ids_in_tier current "low" models), p2, e2).
Proof.
  intros H1 H2 Hid Hfind Htier.
  rewrite <- (strip_github_litellm_name current) in Hfind.
  rewrite (get_fallback_models_found _ _ _ _ _ _ _ _ _ _ _
             H1 H2 Hid Hid Hfind).
  by rewrite Htier, strip_github_litellm_name.
Qed.

(** ** The catalog cache *)

(** [self._models_cache or []] gives the snapshot when it is a list and
    the empty list when there is none. *)
Lemma or_empty_snapshot (cache : option body) :
  or_empty cache =
    match cache with
    | Some (Array models) => Array models
    | Some models => if truthy models then models else Array []
    | None => Array []
    end.
Proof. by destruct cache as [[[|]| | |]|]. Qed.

(** C5.  A call of [get_available_models] whose request fails in
    transport or by its status returns the snapshot held before, or the
    empty list when there is none, and leaves the snapshot and its time
    stamp as they were.  (A snapshot that is not a list, which the
    specification does not know, is returned unless it is falsy.) *)
Theorem fetch_failure_keeps_snapshot force p e :
  cached force p (clock (ticks e)) = None →
  network (fetches e) = TransportError ∨ network (fetches e) = StatusError →
  get_available_models force p e =
    (Ok (match _models_cache p with
         | Some (Array models) => Array models
         | Some models => if truthy models then models else Array []
         | None => Array []
         end),
     p, request (tick e)).
Proof.
  intros Hmiss Hfail. rewrite (get_available_models_miss _ _ _ Hmiss).
  rewrite <- or_empty_snapshot. by destruct Hfail as [-> | ->].
Qed.

(** C6 (as amended).  When the first of two calls fetches the catalog
    with success and the clock read by the second call is less than one
    time-to-live after the first, the two calls send one request in all and
    the second call returns the snapshot the first one returned. *)
Theorem one_fetch_within_window p e models :
  cached false p (clock (ticks e)) = None →
  network (fetches e) = Body (Array models) →
  clock (S (ticks e)) - clock (ticks e) < _cache_ttl →
  let p1 := {| api_key := api_key p;
               _models_cache := Some (Array models);
               _cache_timestamp := Some (clock (ticks e)) |} in
  let e1 := request (tick e) in
  get_available_models false p e = (Ok (Array models), p1, e1) ∧
  get_available_models false p1 e1 = (Ok (Array models), p1, tick e1) ∧
  fetches (tick e1) = S (fetches e) ∧
  one_fetch_same_snapshot p e.
Proof.
  intros Hmiss Hbody Hwindow p1 e1.
  assert (get_available_models false p e = (Ok (Array models), p1, e1)) as H1.
  { rewrite (get_available_models_miss _ _ _ Hmiss). by rewrite Hbody. }
  assert (get_available_models false p1 e1 = (Ok (Array models), p1, tick e1))
    as H2.
  { apply get_available_models_hit. unfold cached. cbn.
    by rewrite bool_decide_eq_true_2. }
  repeat split; try done.
  unfold one_fetch_same_snapshot. by rewrite H1, H2.
Qed.

(** ** Tiers *)

Lemma filter_none {A} (P : A → Prop) `{!∀ x, Decision (P x)} (l : list A) :
  (∀ x, x ∈ l → ¬ P x) → filter P l = [].
Proof.
  induction l as [|x l IH]; intros Hnone; [done|].
  rewrite filter_cons_False by (apply Hnone; left).
  apply IH. intros y Hy. apply Hnone. by right.
Qed.

Lemma filter_all {A} (P : A → Prop) `{!∀ x, Decision (P x)} (l : list A) :
  (∀ x, x ∈ l → P x) → filter P l = l.
Proof.
  induction l as [|x l IH]; intros Hall; [done|].
  rewrite filter_cons_True by (apply Hall; left).
  f_equal. apply IH. intros y Hy. apply Hall. by right.
Qed.

(** One more tier: its models join those of the tiers already counted. *)
Lemma filter_one_more_tier tier tiers (models : catalog) :
  tier ∉ tiers →
  filter (in_tier tier) models ++ filter (tier_among tiers) models
    ≡ₚ filter (tier_among (tier :: tiers)) models.
Proof.
  intros Hnew. induction models as [|model rest IH]; [done|].
  destruct (decide (in_tier tier model)) as [Hin|Hout].
  - rewrite (filter_cons_True (in_tier tier)) by done.
    rewrite (filter_cons_False (tier_among tiers)).
    + rewrite (filter_cons_True (tier_among (tier :: tiers))).
      * cbn. by rewrite IH.
      * exists tier. split; [done|left].
    + intros (tier' & Hin' & Hamong). unfold in_tier in *.
      rewrite Hin in Hin'. by injection Hin' as <-.
  - rewrite (filter_cons_False (in_tier tier)) by done.
    destruct (decide (tier_among tiers model))
      as [(tier' & Hin' & Hamong)|Hnot].
    + rewrite (filter_cons_True (tier_among tiers)) by by exists tier'.
      rewrite (filter_cons_True (tier_among (tier :: tiers))).
      * by rewrite <- Permutation_middle, IH.
      * exists tier'. split; [done|by right].
    + rewrite (filter_cons_False (tier_among tiers)) by done.
      rewrite (filter_cons_False (tier_among (tier :: tiers))); [done|].
      intros (tier' & Hin' & [->|Hamong]%elem_of_cons); [done|].
      apply Hnot. by exists tier'.
Qed.

(** The answers for a list of distinct tiers, put end to end, are the
    models whose tier is in the list, each once. *)
Lemma tier_answers_concat tiers (models : catalog) :
  NoDup tiers →
  concat ((λ tier, filter (in_tier tier) models) <$> tiers)
    ≡ₚ filter (tier_among tiers) models.
Proof.
  induction 1 as [|tier tiers Hnew _ IH]; cbn.
  - rewrite filter_none; [done|]. intros m _ (tier & _ & Hin).
    by inversion Hin.
  - rewrite IH. by apply filter_one_more_tier.
Qed.

(** C9 (as amended).  [get_models_by_tier t] returns exactly the models of
    the catalog served whose [rate_limit_tier] field is [t], in catalog
    order; the answers for two distinct tiers share no model; a model is
    in the answer for some tier exactly when it is in the catalog and
    carries the field.  When every descriptor carries the field, the
    answers cover the catalog: every model is in one of them, and the
    answers for the distinct tiers of the catalog, put end to end, are a
    rearrangement of the catalog. *)
Theorem tier_partition p e models p' e' :
  get_available_models false p e = (Ok (Catalog models), p', e') →
  (∀ tier,
     get_models_by_tier tier p e = (Ok (filter (in_tier tier) models), p', e')
     ∧ filter (in_tier tier) models `sublist_of` models
     ∧ ∀ m, m ∈ filter (in_tier tier) models ↔
            m ∈ models ∧ m !! "rate_limit_tier" = Some tier)
  ∧ (∀ t1 t2 m, t1 ≠ t2 →
       m ∈ filter (in_tier t1) models → m ∉ filter (in_tier t2) models)
  ∧ (∀ m, (∃ tier, m ∈ filter (in_tier tier) models) ↔
          m ∈ models ∧ has_field "rate_limit_tier" m)
  ∧ (Forall (has_field "rate_limit_tier") models →
     (∀ m, m ∈ models ↔ ∃ tier, m ∈ filter (in_tier tier) models) ∧
     (∀ tiers,
        NoDup tiers →
        (∀ m tier, m ∈ models → in_tier tier m → tier ∈ tiers) →
        concat ((λ tier, filter (in_tier tier) models) <$> tiers)
          ≡ₚ models)).
Proof.
  intros Hserved.
  assert (∀ tier m, m ∈ filter (in_tier tier) models ↔
                    m ∈ models ∧ m !! "rate_limit_tier" = Some tier) as Hin.
  { intros tier m. rewrite list_elem_of_filter. unfold in_tier. tauto. }
  assert (∀ m, (∃ tier, m ∈ filter (in_tier tier) models) ↔
               m ∈ models ∧ has_field "rate_limit_tier" m) as Hcover.
  { intros m. split.
    - intros [tier [Hm Htier]%Hin]. split; [done|]. by exists tier.
    - intros [Hm [tier Htier]]. exists tier. by apply Hin. }
  split; [intros tier; split; [|split]|split; [|split]].
  - by apply get_models_by_tier_catalog.
  - apply sublist_filter.
  - apply Hin.
  - intros t1 t2 m Hne [_ H1]%Hin [_ H2]%Hin. congruence.
  - apply Hcover.
  - intros Hall. split.
    + intros m. rewrite Hcover. split; [|tauto].
      intros Hm. split; [done|]. by eapply Forall_forall in Hall.
    + intros tiers Hdistinct Hlisted.
      rewrite tier_answers_concat by done.
      rewrite filter_all; [done|]. intros m Hm.
      destruct (proj1 (Forall_forall _ _) Hall m Hm) as [tier Htier].
      exists tier. split; [done|]. by eapply Hlisted.
Qed.

(** ** The cooldown tracker *)

(** The three ways through [is_model_available]. *)
Lemma is_model_available_run model h e :
  is_model_available model h e =
    match _failed_models h !! model with
    | None => (Ok true, h, e)
    | Some failed_at =>
        if bool_decide (clock (ticks e) - failed_at > _failure_timeout)
        then (Ok true,
              {| provider := provider h;
                 _failed_models := delete model (_failed_models h) |},
              tick e)
        else (Ok false, h, tick e)
    end.
Proof.
  unfold is_model_available, bind, get. cbn.
  destruct (_failed_models h !! model) as [failed_at|]; [|done].
  unfold time_time. cbn. by case_bool_decide.
Qed.

(** Its answer is the availability rule, at the time it reads when there
    is an entry. *)
Lemma is_model_available_answer model h e :
  (is_model_available model h e).1.1 =
    Ok (available_at (_failed_models h) (clock (ticks e)) model).
Proof.
  rewrite is_model_available_run. unfold available_at, _failure_timeout.
  destruct (_failed_models h !! model); [|done]. by case_bool_decide.
Qed.

Lemma mark_model_failed_run model h e :
  mark_model_failed model h e =
    (Ok tt,
     {| provider := provider h;
        _failed_models := <[model := clock (ticks e)]> (_failed_models h) |},
     tick e).
Proof. done. Qed.

(** C7.  A model marked failed when the clock reads 0 is unavailable at a
    query made when the clock reads 100, which leaves the tracker as it
    was, and available at a query made when the clock reads 301, which
    leaves no entry for it in the cooldown map. *)
Theorem cooldown_expiry model h e :
  clock (ticks e) = 0 →
  let h1 := {| provider := provider h;
               _failed_models := <[model := 0]> (_failed_models h) |} in
  let h3 := {| provider := provider h;
               _failed_models := delete model (_failed_models h1) |} in
  mark_model_failed model h e = (Ok tt, h1, tick e) ∧
  (∀ e100, clock (ticks e100) = 100 →
           is_model_available model h1 e100 = (Ok false, h1, tick e100)) ∧
  (∀ e301, clock (ticks e301) = 301 →
           is_model_available model h1 e301 = (Ok true, h3, tick e301)) ∧
  _failed_models h3 !! model = None.
Proof.
  intros H0 h1 h3. split; [|split; [|split]].
  - rewrite mark_model_failed_run. by rewrite H0.
  - intros e100 H100. rewrite is_model_available_run. cbn.
    rewrite lookup_insert_eq, H100. by rewrite bool_decide_eq_false_2.
  - intros e301 H301. rewrite is_model_available_run. cbn.
    rewrite lookup_insert_eq, H301. by rewrite bool_decide_eq_true_2.
  - apply lookup_delete_eq.
Qed.

(** C10.  [is_model_available] touches at most the entry of the id it is
    asked about, and only to remove it: the provider, the entries of all
    other ids and every time stamp stay, and no entry is added. *)
Theorem is_model_available_frame model h e r h' e' :
  is_model_available model h e = (r, h', e') →
  provider h' = provider h ∧
  (∀ other, other ≠ model →
            _failed_models h' !! other = _failed_models h !! other) ∧
  (_failed_models h' !! model = _failed_models h !! model ∨
   _failed_models h' !! model = None) ∧
  _failed_models h' ⊆ _failed_models h.
Proof.
  rewrite is_model_available_run.
  destruct (_failed_models h !! model) as [failed_at|] eqn:Hentry;
    [case_bool_decide|]; intros [= <- <- <-]; cbn;
    repeat split; auto.
  - intros other Hne. by apply lookup_delete_ne.
  - right. apply lookup_delete_eq.
  - apply delete_subseteq.
Qed.

(** The loop of [get_next_available_model]: the candidates it passes over
    are in cooldown at the time they are read, all against the map the
    loop started with, and the one it returns, if any, is available and
    leaves the map. *)
Lemma first_available_run fallback_models h e :
  ∃ r h' e',
    first_available fallback_models h e = (Ok r, h', e') ∧
    (ticks e ≤ ticks e')%nat ∧ fetches e' = fetches e ∧
    provider h' = provider h ∧
    match r with
    | Some model =>
        ∃ passed rest,
          fallback_models = passed ++ model :: rest ∧
          (∀ c, c ∈ passed →
             ∃ n, (ticks e ≤ n < ticks e')%nat ∧
                  available_at (_failed_models h) (clock n) c = false) ∧
          (∃ n, (ticks e ≤ n ≤ ticks e')%nat ∧
                available_at (_failed_models h) (clock n) model = true) ∧
          _failed_models h' = delete model (_failed_models h)
    | None =>
        h' = h ∧
        ∀ c, c ∈ fallback_models →
          ∃ n, (ticks e ≤ n < ticks e')%nat ∧
               available_at (_failed_models h) (clock n) c = false
    end.
Proof.
  revert e. induction fallback_models as [|model rest IH]; intros e.
  { exists None, h, e. repeat split; auto. intros c Hc. by inversion Hc. }
  cbn [first_available]. unfold bind at 1.
  pose proof (is_model_available_answer model h e) as Hanswer.
  rewrite is_model_available_run in Hanswer |- *.
  destruct (_failed_models h !! model) as [failed_at|] eqn:Hentry.
  - case_bool_decide as Hold; cbn in Hanswer; injection Hanswer as Hanswer.
    + exists (Some model),
        {| provider := provider h;
           _failed_models := delete model (_failed_models h) |}, (tick e).
      cbn. repeat split; auto.
      exists [], rest. repeat split; auto.
      * intros c Hc. by inversion Hc.
      * exists (ticks e). split; [lia|done].
    + destruct (IH (tick e)) as (r & h' & e' & Hrun & Hticks & Hf & Hp & Hr).
      exists r, h', e'. rewrite Hrun. cbn in Hticks.
      repeat split; auto; [lia|].
      destruct r as [found|].
      * destruct Hr as (passed & rest' & -> & Hpassed & Hfound & Hmap).
        exists (model :: passed), rest'. repeat split; auto.
        -- intros c [->|Hc]%elem_of_cons.
           ++ exists (ticks e). split; [lia|done].
           ++ destruct (Hpassed c Hc) as (n & Hn & Hc'). exists n.
              split; [cbn in Hn; lia|done].
        -- destruct Hfound as (n & Hn & Hm). exists n.
           split; [cbn in Hn; lia|done].
      * destruct Hr as [-> Hall]. split; [done|].
        intros c [->|Hc]%elem_of_cons.
        -- exists (ticks e). split; [lia|done].
        -- destruct (Hall c Hc) as (n & Hn & Hc'). exists n.
           split; [cbn in Hn; lia|done].
  - exists (Some model), h, e. cbn. repeat split; auto.
    exists [], rest. repeat split; auto.
    + intros c Hc. by inversion Hc.
    + exists (ticks e). split; [lia|]. unfold available_at. by rewrite Hentry.
    + symmetry. by apply delete_id.
Qed.

(** With a clock that stands still during the loop, the loop is a search
    for the first candidate the availability rule accepts. *)
Lemma first_available_find fallback_models h e now :
  (∀ n, (ticks e ≤ n)%nat → clock n = now) →
  (first_available fallback_models h e).1.1 =
    Ok (List.find (available_at (_failed_models h) now) fallback_models).
Proof.
  revert e. induction fallback_models as [|model rest IH]; intros e Hnow.
  { done. }
  cbn [first_available List.find]. unfold bind at 1.
  pose proof (is_model_available_answer model h e) as Hanswer.
  rewrite (Hnow (ticks e)) in Hanswer by lia.
  rewrite is_model_available_run in Hanswer |- *.
  destruct (_failed_models h !! model) as [failed_at|] eqn:Hentry.
  - case_bool_decide as Hold; cbn in Hanswer; injection Hanswer as <-.
    + done.
    + apply IH. intros n Hn. apply Hnow. cbn in Hn. lia.
  - cbn in Hanswer. by injection Hanswer as <-.
Qed.

Lemma cooling_entry failed now c :
  available_at failed now c = false →
  ∃ failed_at, failed !! c = Some failed_at ∧ now - failed_at ≤ 300.
Proof.
  unfold available_at. destruct (failed !! c) as [failed_at|]; [|done].
  intros Hcool%bool_decide_eq_false. exists failed_at. split; [done|lia].
Qed.

(** What the loop leaves in the cooldown map: nothing for the candidate it
    returns, and for a candidate it read and passed over the entry it
    found, within the window when read. *)
Lemma first_available_evicts fallback_models h e r h' e' :
  first_available fallback_models h e = (r, h', e') →
  ∃ read unread,
    fallback_models = read ++ unread ∧
    (∀ model, r = Ok (Some model) →
              last read = Some model ∧ _failed_models h' !! model = None) ∧
    (r = Ok None → unread = []) ∧
    ∀ c failed_at,
      c ∈ read →
      _failed_models h' !! c = Some failed_at →
      ∃ n, (ticks e ≤ n < ticks e')%nat ∧
           clock n - failed_at ≤ _failure_timeout.
Proof.
  intros Hrun.
  destruct (first_available_run fallback_models h e)
    as (r0 & h0 & e0 & Hrun0 & _ & _ & _ & Hr).
  rewrite Hrun in Hrun0. injection Hrun0 as -> <- <-.
  destruct r0 as [found|].
  - destruct Hr as (passed & rest & -> & Hpassed & _ & Hmap).
    exists (passed ++ [found]), rest. rewrite <- app_assoc. cbn.
    split; [done|]. split; [|split; [done|]].
    + intros model [= <-]. rewrite last_snoc, Hmap.
      split; [done|]. apply lookup_delete_eq.
    + intros c failed_at [Hc|Hc]%elem_of_app; rewrite Hmap.
      * destruct (Hpassed c Hc) as (n & Hn & Hcool).
        apply cooling_entry in Hcool as (entry & Hentry & Hage).
        intros [_ Hc']%lookup_delete_Some. exists n.
        split; [done|]. unfold _failure_timeout. congruence.
      * apply list_elem_of_singleton in Hc as ->.
        by rewrite lookup_delete_eq.
  - destruct Hr as [-> Hall].
    exists fallback_models, []. rewrite app_nil_r.
    split; [done|]. split; [done|]. split; [done|].
    intros c failed_at Hc Hentry.
    destruct (Hall c Hc) as (n & Hn & Hcool).
    apply cooling_entry in Hcool as (entry & Hentry' & Hage).
    exists n. split; [done|]. unfold _failure_timeout. congruence.
Qed.

(** A provider method run through the handler leaves the cooldown map. *)
Lemma on_provider_run {A} (c : M Provider A) h e r p' e' :
  c (provider h) e = (r, p', e') →
  on_provider c h e =
    (r, {| provider := p'; _failed_models := _failed_models h |}, e').
Proof. intros Hc. unfold on_provider. by rewrite Hc. Qed.

Lemma on_provider_failed_models {A} (c : M Provider A) h e r h' e' :
  on_provider c h e = (r, h', e') → _failed_models h' = _failed_models h.
Proof.
  unfold on_provider. destruct (c (provider h) e) as [[? ?] ?].
  by intros [= <- <- <-].
Qed.

(** C8.  A read of an id's availability that finds an entry older than the
    cooldown window removes the entry and answers true; an entry that is
    still there after the read is the one found, of an age within the
    window at the time of the read.  So it is for every candidate read
    inside [get_next_available_model]: the candidate returned has no
    entry afterwards, and a candidate read and passed over keeps an entry
    that was within the window when read. *)
Theorem expired_entry_evicted_on_read :
  (∀ model h e r h' e',
     is_model_available model h e = (r, h', e') →
     (∀ failed_at,
        _failed_models h !! model = Some failed_at →
        clock (ticks e) - failed_at > _failure_timeout →
        r = Ok true ∧ _failed_models h' !! model = None) ∧
     (∀ failed_at,
        _failed_models h' !! model = Some failed_at →
        r = Ok false ∧
        _failed_models h !! model = Some failed_at ∧
        clock (ticks e) - failed_at ≤ _failure_timeout))
  ∧
  (∀ current_model h e fallback_models h1 e1 r h' e',
     on_provider (get_fallback_models current_model) h e
       = (Ok fallback_models, h1, e1) →
     get_next_available_model current_model h e = (r, h', e') →
     ∃ read unread,
       fallback_models = read ++ unread ∧
       (∀ model, r = Ok (Some model) →
                 last read = Some model ∧ _failed_models h' !! model = None) ∧
       (r = Ok None → unread = []) ∧
       ∀ c failed_at,
         c ∈ read →
         _failed_models h' !! c = Some failed_at →
         ∃ n, (ticks e1 ≤ n < ticks e')%nat ∧
              clock n - failed_at ≤ _failure_timeout).
Proof.
  split.
  - intros model h e r h' e'. rewrite is_model_available_run.
    destruct (_failed_models h !! model) as [entry|] eqn:Hentry.
    + case_bool_decide as Hold; intros [= <- <- <-]; cbn; split.
      * intros ? _ _. split; [done|]. apply lookup_delete_eq.
      * intros failed_at. by rewrite lookup_delete_eq.
      * intros failed_at [= <-] Hexpired. lia.
      * intros failed_at. rewrite Hentry. intros [= <-].
        repeat split; auto; lia.
    + intros [= <- <- <-]. split.
      * intros ?. by rewrite Hentry.
      * intros ?. by rewrite Hentry.
  - intros current_model h e fallback_models h1 e1 r h' e' Hlist.
    unfold get_next_available_model, bind. rewrite Hlist.
    apply first_available_evicts.
Qed.

(** C2.  [get_next_available_model] returns the first fallback candidate,
    in the order [get_fallback_models] lists them, that
    [is_model_available] accepts, and [None] when it accepts none: the
    candidates before the returned one are in cooldown when they are read,
    the returned one is not; with a clock standing still during the loop
    the result is the first candidate the availability rule accepts.  With
    the example catalog served and the llama model marked failed, the call
    on [github/openai/gpt-4.1] returns the mistral model. *)
Theorem get_next_available_model_first :
  (∀ current_model h e fallback_models h1 e1,
     on_provider (get_fallback_models current_model) h e
       = (Ok fallback_models, h1, e1) →
     ∃ r h2 e2,
       get_next_available_model current_model h e = (Ok r, h2, e2) ∧
       match r with
       | Some model =>
           ∃ passed rest,
             fallback_models = passed ++ model :: rest ∧
             (∀ c, c ∈ passed →
                ∃ n, (ticks e1 ≤ n < ticks e2)%nat ∧
                     available_at (_failed_models h) (clock n) c = false) ∧
             (∃ n, (ticks e1 ≤ n ≤ ticks e2)%nat ∧
                   available_at (_failed_models h) (clock n) model = true)
       | None =>
           ∀ c, c ∈ fallback_models →
             ∃ n, (ticks e1 ≤ n < ticks e2)%nat ∧
                  available_at (_failed_models h) (clock n) c = false
       end ∧
       ∀ now, (∀ n, (ticks e1 ≤ n)%nat → clock n = now) →
              r = List.find (available_at (_failed_models h) now)
                            fallback_models)
  ∧
  (∀ now e,
     (∀ n, clock n = now) →
     (∀ n, network n = Body (Catalog example_catalog)) →
     ∃ h' e',
       (mark_model_failed "github/meta/llama-3.3-70b-instruct" ;;;
        get_next_available_model "github/openai/gpt-4.1") fresh_handler e
       = (Ok (Some "github/mistral-ai/mistral-large-2411"), h', e')).
Proof.
  split.
  - intros current_model h e fallback_models h1 e1 Hlist.
    pose proof (on_provider_failed_models _ _ _ _ _ _ Hlist) as Hsame.
    destruct (first_available_run fallback_models h1 e1)
      as (r & h2 & e2 & Hrun & _ & _ & _ & Hr).
    exists r, h2, e2. rewrite Hsame in Hr. split; [|split].
    + unfold get_next_available_model, bind. by rewrite Hlist.
    + destruct r as [model|].
      * destruct Hr as (passed & rest & ? & ? & ? & _). by exists passed, rest.
      * by destruct Hr as [_ ?].
    + intros now Hnow.
      pose proof (first_available_find fallback_models h1 e1 now Hnow) as Hf.
      rewrite Hrun, Hsame in Hf. cbn in Hf. by injection Hf.
  - intros now e Hnow Hnet.
    unfold bind at 1. rewrite mark_model_failed_run, Hnow.
    unfold get_next_available_model, bind.
    erewrite on_provider_run; cycle 1.
    { eapply get_fallback_models_example.
      - by apply get_available_models_fetch.
      - apply get_available_models_hit. unfold cached. cbn. rewrite !Hnow.
        by rewrite bool_decide_eq_true_2 by (unfold _cache_ttl; lia). }
    cbn [first_available]. unfold bind at 1.
    rewrite is_model_available_run. cbn. rewrite lookup_insert_eq, Hnow.
    rewrite bool_decide_eq_false_2 by (unfold _failure_timeout; lia).
    unfold bind at 1. rewrite is_model_available_run. cbn.
    rewrite lookup_insert_ne by done. rewrite lookup_empty. cbn.
    by eexists _, _.
Qed.

(** ** Failures *)


Lemma litellm_names_identified models :
  identified models →
  litellm_names (Model <$> models) =
    Ok (litellm_name <$> omap (λ m : descriptor, m !! "id") models).
Proof.
  induction 1 as [|model rest [i Hi] _ IH]; [done|].
  cbn. unfold getitem. rewrite Hi. cbn. by rewrite IH.
Qed.










(** * Further properties of the provider *)

(** ** Names and ids *)

Lemma prefix_split p s :
  String.prefix p s = true → s = p +:+ slice_from (String.length p) s.
Proof.
  revert s. induction p as [|a p IH]; intros s Hp; [done|].
  destruct s as [|b s]; [done|]. cbn in Hp.
  destruct (Ascii.ascii_dec a b) as [->|]; [|done].
  change (String b s = String b (p +:+ slice_from (String.length p) s)).
  f_equal. by apply IH.
Qed.

Lemma is_github_model_litellm_name id : is_github_model (litellm_name id) = true.
Proof. unfold is_github_model. vm_compute. by destruct id. Qed.

(** X1.  The prefix [github/] is put on and taken off without loss:
    stripping a LiteLLM name gives the id back, a name that
    [is_github_model] accepts is the LiteLLM name of what stripping leaves,
    and a name it rejects is left alone, so that [get_fallback_models]
    answers the same for an id with or without the prefix. *)
Theorem namespace_round_trip :
  (∀ id, strip_github (litellm_name id) = id ∧
         is_github_model (litellm_name id) = true) ∧
  (∀ name, is_github_model name = true →
           litellm_name (strip_github name) = name) ∧
  (∀ name, is_github_model name = false → strip_github name = name) ∧
  (∀ name p e, is_github_model name = false →
               get_fallback_models (litellm_name name) p e
               = get_fallback_models name p e).
Proof.
  assert (∀ name, is_github_model name = false → strip_github name = name)
    as Hbare.
  { intros name Hno. unfold strip_github.
    unfold is_github_model in Hno. by rewrite Hno. }
  split; [|split; [|split]].
  - intros id. split; [apply strip_github_litellm_name|].
    apply is_github_model_litellm_name.
  - intros name Hyes. unfold strip_github, litellm_name.
    unfold is_github_model in Hyes. rewrite Hyes.
    symmetry. by apply (prefix_split "github/").
  - exact Hbare.
  - intros name p e Hno. unfold get_fallback_models.
    by rewrite strip_github_litellm_name, Hbare.
Qed.

(** ** The model list *)

Lemma litellm_names_missing_id (models : catalog) :
  ¬ identified models →
  litellm_names (Model <$> models) = Raise (KeyError "id").
Proof.
  induction models as [|model rest IH]; intros Hnot.
  { destruct Hnot. constructor. }
  cbn. unfold getitem.
  destruct (model !! "id") as [i|] eqn:Hi; [|done]. cbn.
  rewrite IH; [done|]. intros Hrest. apply Hnot.
  constructor; [by exists i|done].
Qed.

Lemma omap_id_identified (models : catalog) :
  identified models →
  length (omap (λ m : descriptor, m !! "id") models) = length models.
Proof.
  induction 1 as [|model rest [i Hi] _ IH]; [done|].
  cbn. rewrite Hi. cbn. by rewrite IH.
Qed.

Lemma strip_litellm_names (ids : list string) :
  strip_github <$> (litellm_name <$> ids) = ids.
Proof.
  induction ids as [|i ids IH]; [done|].
  cbn [fmap list_fmap]. rewrite strip_github_litellm_name. f_equal. apply IH.
Qed.

(** X2.  [get_litellm_model_list] names every model of the catalog it is
    served, in order: as many names as models, each one accepted by
    [is_github_model], and stripping them gives the ids back.  It raises
    [KeyError('id')] exactly when some descriptor has no id. *)
Theorem litellm_model_list_exact p e models p' e' :
  get_available_models false p e = (Ok (Catalog models), p', e') →
  (identified models →
   ∃ names,
     get_litellm_model_list p e = (Ok names, p', e') ∧
     length names = length models ∧
     Forall (λ n, is_github_model n = true) names ∧
     strip_github <$> names = omap (λ m : descriptor, m !! "id") models) ∧
  (¬ identified models →
   get_litellm_model_list p e = (Raise (KeyError "id"), p', e')).
Proof.
  intros Hserved. split.
  - intros Hid. eexists. split; [|split; [|split]].
    + unfold get_litellm_model_list, bind, lift. rewrite Hserved.
      cbn [iterate Catalog]. by rewrite litellm_names_identified.
    + by rewrite length_fmap, omap_id_identified.
    + apply Forall_fmap, Forall_true. intros i. cbn.
      apply is_github_model_litellm_name.
    + apply strip_litellm_names.
  - intros Hnot. unfold get_litellm_model_list, bind, lift.
    rewrite Hserved. cbn [iterate Catalog].
    by rewrite litellm_names_missing_id.
Qed.

(** ** Fallbacks at the edges *)

(** X3.  For a model that is not in the catalog, in particular with an
    empty catalog, [get_fallback_models] returns the empty list after one
    look-up: the second look-up, made for the tier, does not take place. *)
Theorem get_fallback_models_unknown_model current_model p e models p1 e1 :
  get_available_models false p e = (Ok (Catalog models), p1, e1) →
  identified models →
  (∀ m, m ∈ models → m !! "id" ≠ Some (strip_github current_model)) →
  get_fallback_models current_model p e = (Ok [], p1, e1).
Proof.
  intros Hserved Hid Hunknown.
  apply (get_fallback_models_unknown _ _ _ _ _ _ Hserved Hid).
  apply list_find_None, Forall_forall. intros m Hm. by apply Hunknown.
Qed.

Lemma other_models_sound id models names :
  other_models id models = Ok names →
  ∀ n, n ∈ names →
       ∃ i m, n = litellm_name i ∧ i ≠ id ∧ m ∈ models ∧ m !! "id" = Some i.
Proof.
  revert names. induction models as [|model rest IH]; intros names.
  { intros [= <-] n Hn. by inversion Hn. }
  cbn. unfold getitem.
  destruct (model !! "id") as [i|] eqn:Hi; [|done]. cbn.
  destruct (String.eqb_spec i id) as [->|Hne]; cbn.
  - intros Hrest n Hn.
    destruct (IH _ Hrest n Hn) as (j & m & ? & ? & ? & ?).
    exists j, m. repeat split; auto. by right.
  - destruct (other_models id rest) as [names'|] eqn:Hrest; [|done]. cbn.
    intros [= <-] n [->|Hn]%elem_of_cons.
    + exists i, model. repeat split; auto. by left.
    + destruct (IH _ eq_refl n Hn) as (j & m & ? & ? & ? & ?).
      exists j, m. repeat split; auto. by right.
Qed.

(** Whatever the catalog, a list that [get_fallback_models] returns is
    empty or comes out of its second loop. *)
Lemma get_fallback_models_names current_model p e names p' e' :
  get_fallback_models current_model p e = (Ok names, p', e') →
  names = [] ∨
  ∃ tier_models,
    other_models (strip_github current_model) tier_models = Ok names.
Proof.
  unfold get_fallback_models, bind at 1.
  destruct (get_available_models false p e) as [[[models|x] p1] e1]; [|done].
  unfold bind at 1, lift at 1.
  destruct (iterate models) as [items|x]; [|done].
  unfold bind at 1, lift at 1.
  destruct (find_model _ items) as [[info|]|x]; [| |done].
  - destruct (falsy (Some info)).
    + intros [= <- _ _]. by left.
    + unfold bind at 1.
      destruct (get_models_by_tier _ p1 e1)
        as [[[tier_models|x] p2] e2]; [|done].
      unfold lift. intros [= Hnames _ _]. right. eauto.
  - intros [= <- _ _]. by left.
Qed.

Lemma litellm_name_inj i j : litellm_name i = litellm_name j → i = j.
Proof. unfold litellm_name. by intros [=]. Qed.

(** X4.  [get_fallback_models] never proposes the current model: every
    name it returns carries the prefix and is the name of another id than
    the current one, whether the current model was given with the prefix
    or without.  Nor does [get_next_available_model] return it. *)
Theorem fallback_is_another_model :
  (∀ current_model p e names p' e',
     get_fallback_models current_model p e = (Ok names, p', e') →
     ∀ n, n ∈ names →
          is_github_model n = true ∧
          strip_github n ≠ strip_github current_model ∧
          n ≠ current_model) ∧
  (∀ current_model h e model h' e',
     get_next_available_model current_model h e = (Ok (Some model), h', e') →
     is_github_model model = true ∧ model ≠ current_model).
Proof.
  assert (∀ current_model p e names p' e',
     get_fallback_models current_model p e = (Ok names, p', e') →
     ∀ n, n ∈ names →
          is_github_model n = true ∧
          strip_github n ≠ strip_github current_model ∧
          n ≠ current_model) as Hnames.
  { intros current_model p e names p' e' Hrun n Hn.
    destruct (get_fallback_models_names _ _ _ _ _ _ Hrun)
      as [->|[tier_models Hloop]]; [by inversion Hn|].
    destruct (other_models_sound _ _ _ Hloop n Hn) as (i & m & -> & Hne & _).
    split; [apply is_github_model_litellm_name|].
    rewrite strip_github_litellm_name. split; [done|].
    intros <-. by rewrite strip_github_litellm_name in Hne. }
  split; [exact Hnames|].
  intros current_model h e model h' e'.
  unfold get_next_available_model, bind at 1, on_provider.
  destruct (get_fallback_models current_model (provider h) e)
    as [[[names|x] p1] e1] eqn:Hlist; [|done].
  intros Hloop.
  destruct (first_available_run names
              {| provider := p1; _failed_models := _failed_models h |} e1)
    as (r & h2 & e2 & Hrun & _ & _ & _ & Hr).
  rewrite Hloop in Hrun. injection Hrun as <- <- <-.
  destruct Hr as (passed & rest & -> & _).
  destruct (Hnames _ _ _ _ _ _ Hlist model) as (? & _ & ?); [|done].
  apply elem_of_app. right. by left.
Qed.

(** ** The state of the provider *)

(** One look-up leaves the provider as it was, or stores what the body
    decoded to under the time it read, before it takes the length. *)
Lemma get_available_models_step force p e r p' e' :
  get_available_models force p e = (r, p', e') →
  p' = p ∨
  (∃ models,
     network (fetches e) = Body models ∧
     r = match models with
         | Array _ | Object _ | Text _ => Ok models
         | Unsized _ => Raise TypeError
         end ∧
     p' = {| api_key := api_key p;
             _models_cache := Some models;
             _cache_timestamp := Some (clock (ticks e)) |}) ∨
  (network (fetches e) = NullBody ∧ r = Raise TypeError ∧
   p' = {| api_key := api_key p;
           _models_cache := None;
           _cache_timestamp := Some (clock (ticks e)) |}).
Proof.
  destruct (cached force p (clock (ticks e))) as [models|] eqn:Hcached.
  - rewrite (get_available_models_hit _ _ _ _ Hcached).
    intros [= <- <- <-]. by left.
  - rewrite (get_available_models_miss _ _ _ Hcached).
    destruct (network (fetches e)) as [| | | | |models];
      intros [= <- <- <-]; [by left..| |].
    + right. by right.
    + right. left. exists models. by destruct models.
Qed.

Lemma get_available_models_keeps force p e :
  (stamped p → stamped (get_available_models force p e).1.2) ∧
  api_key (get_available_models force p e).1.2 = api_key p.
Proof.
  destruct (get_available_models force p e) as [[r p'] e'] eqn:Hrun.
  destruct (get_available_models_step _ _ _ _ _ _ Hrun)
    as [->|[(models & _ & _ & ->)|(_ & _ & ->)]]; cbn; [done|..];
    (split; [|done]); intros _ _; by eexists.
Qed.

Lemma get_models_by_tier_keeps tier p e :
  (stamped p → stamped (get_models_by_tier tier p e).1.2) ∧
  api_key (get_models_by_tier tier p e).1.2 = api_key p.
Proof.
  destruct (get_models_by_tier tier p e) as [[r p'] e'] eqn:Hrun.
  cbn. revert Hrun. unfold get_models_by_tier, bind at 1.
  pose proof (get_available_models_keeps false p e) as Hk.
  destruct (get_available_models false p e) as [[[models|x] p1] e1];
    cbn in Hk; [|by intros [= <- <- <-]].
  unfold bind, lift. destruct (iterate models) as [items|x];
    by intros [= <- <- <-].
Qed.

Lemma get_fallback_models_keeps current_model p e :
  (stamped p → stamped (get_fallback_models current_model p e).1.2) ∧
  api_key (get_fallback_models current_model p e).1.2 = api_key p.
Proof.
  destruct (get_fallback_models current_model p e) as [[r p'] e'] eqn:Hrun.
  cbn. revert Hrun. unfold get_fallback_models, bind at 1.
  pose proof (get_available_models_keeps false p e) as [Hs1 Hk1].
  destruct (get_available_models false p e) as [[[models|x] p1] e1];
    cbn in Hs1, Hk1; [|by intros [= <- <- <-]].
  unfold bind at 1, lift at 1.
  destruct (iterate models) as [items|x]; [|by intros [= <- <- <-]].
  unfold bind at 1, lift at 1.
  destruct (find_model _ items) as [[info|]|x];
    [|by intros [= <- <- <-]..].
  destruct (falsy (Some info)); [by intros [= <- <- <-]|].
  unfold bind at 1.
  pose proof (get_models_by_tier_keeps
                (default "low" (info !! "rate_limit_tier")) p1 e1)
    as [Hs2 Hk2].
  destruct (get_models_by_tier _ p1 e1) as [[[tier_models|x] p2] e2];
    cbn in Hs2, Hk2; unfold lift; intros [= <- <- <-]; split; auto;
    congruence.
Qed.

(** X5.  The provider's state only moves when a body has been decoded:
    what it decoded to is stored with the time read at the start of the
    call, before its length is taken, so also when the call then raises.
    A [null] body leaves a time stamp and no snapshot, and erases the
    snapshot held.  The converse does not happen: a snapshot held has its
    time stamp, from construction on and through every method, whether it
    returns or raises.  No method changes the key. *)
Theorem provider_state_invariant :
  (∀ key, _models_cache (new_provider key) = None ∧
          _cache_timestamp (new_provider key) = None) ∧
  (∀ force p e r p' e',
     get_available_models force p e = (r, p', e') →
     p' = p ∨
     (∃ models,
        network (fetches e) = Body models ∧
        r = match models with
            | Array _ | Object _ | Text _ => Ok models
            | Unsized _ => Raise TypeError
            end ∧
        p' = {| api_key := api_key p;
                _models_cache := Some models;
                _cache_timestamp := Some (clock (ticks e)) |}) ∨
     (network (fetches e) = NullBody ∧ r = Raise TypeError ∧
      p' = {| api_key := api_key p;
              _models_cache := None;
              _cache_timestamp := Some (clock (ticks e)) |})) ∧
  (∀ force p e,
     cached force p (clock (ticks e)) = None →
     network (fetches e) = NullBody →
     get_available_models force p e =
       (Raise TypeError,
        {| api_key := api_key p;
           _models_cache := None;
           _cache_timestamp := Some (clock (ticks e)) |},
        request (tick e))) ∧
  (∀ force tier current_model p e,
     stamped p →
     stamped (get_available_models force p e).1.2 ∧
     stamped (get_models_by_tier tier p e).1.2 ∧
     stamped (get_fallback_models current_model p e).1.2 ∧
     stamped (get_litellm_model_list p e).1.2) ∧
  (∀ force tier current_model p e,
     api_key (get_available_models force p e).1.2 = api_key p ∧
     api_key (get_models_by_tier tier p e).1.2 = api_key p ∧
     api_key (get_fallback_models current_model p e).1.2 = api_key p ∧
     api_key (get_litellm_model_list p e).1.2 = api_key p).
Proof.
  assert (∀ p e,
            (stamped p → stamped (get_litellm_model_list p e).1.2) ∧
            api_key (get_litellm_model_list p e).1.2 = api_key p) as Hlist.
  { intros p e.
    destruct (get_litellm_model_list p e) as [[r p'] e'] eqn:Hrun.
    cbn. revert Hrun. unfold get_litellm_model_list, bind at 1.
    pose proof (get_available_models_keeps false p e) as Hk.
    destruct (get_available_models false p e) as [[[models|x] p1] e1];
      cbn in Hk; [|by intros [= <- <- <-]].
    unfold bind, lift. destruct (iterate models) as [items|x];
      by intros [= <- <- <-]. }
  split; [|split; [|split; [|split]]].
  - done.
  - apply get_available_models_step.
  - intros force p e Hmiss Hnull.
    by rewrite (get_available_models_miss _ _ _ Hmiss), Hnull.
  - intros force tier current_model p e Hp. split; [|split; [|split]].
    + by apply get_available_models_keeps.
    + by apply get_models_by_tier_keeps.
    + by apply get_fallback_models_keeps.
    + by apply Hlist.
  - intros force tier current_model p e. split; [|split; [|split]].
    + apply get_available_models_keeps.
    + apply get_models_by_tier_keeps.
    + apply get_fallback_models_keeps.
    + apply Hlist.
Qed.

(** X6.  A call of [get_available_models] reads the clock once and sends
    one request or none.  It sends none exactly when it is not forced and
    holds a snapshot stamped less than 300 seconds before the reading, and
    then returns that snapshot and changes nothing; a forced call, a
    provider without snapshot and a snapshot aged 300 seconds or more all
    lead to a request. *)
Theorem one_request_at_most force p e r p' e' :
  get_available_models force p e = (r, p', e') →
  ticks e' = S (ticks e) ∧
  ((fetches e' = fetches e ∧ force = false ∧ p' = p ∧
    ∃ models stamp,
      _models_cache p = Some models ∧ _cache_timestamp p = Some stamp ∧
      clock (ticks e) - stamp < 300 ∧ r = Ok models)
   ∨
   (fetches e' = S (fetches e) ∧
    (force = true ∨ _models_cache p = None ∨ _cache_timestamp p = None ∨
     ∃ stamp, _cache_timestamp p = Some stamp ∧
              300 ≤ clock (ticks e) - stamp))).
Proof.
  destruct (cached force p (clock (ticks e))) as [models|] eqn:Hcached.
  - rewrite (get_available_models_hit _ _ _ _ Hcached).
    intros [= <- <- <-]. split; [done|]. left.
    unfold cached in Hcached.
    destruct force, (_models_cache p) as [cache|],
      (_cache_timestamp p) as [stamp|]; try done.
    case_bool_decide as Hage; [|done]. injection Hcached as ->.
    repeat split; auto. by exists models, stamp.
  - rewrite (get_available_models_miss _ _ _ Hcached).
    assert (force = true ∨ _models_cache p = None ∨
            _cache_timestamp p = None ∨
            ∃ stamp, _cache_timestamp p = Some stamp ∧
                     300 ≤ clock (ticks e) - stamp) as Hwhy.
    { unfold cached in Hcached.
      destruct force; [by left|]. right.
      destruct (_models_cache p) as [cache|]; [|by left]. right.
      destruct (_cache_timestamp p) as [stamp|]; [|by left]. right.
      case_bool_decide as Hage; [done|]. exists stamp.
      split; [done|]. unfold _cache_ttl in Hage. lia. }
    destruct (network (fetches e)); intros [= <- <- <-];
      (split; [done|]); right; by split.
Qed.

(** * Further properties of the cooldown tracker *)

(** X7.  The last failure wins, and the window is closed at its end: after
    [mark_model_failed], whatever entry the model had before, the model's
    entry is the time just read, the other entries and the provider are
    as they were, and a later query answers true exactly when the clock
    has advanced by more than 300 seconds; at 300 seconds sharp, and when
    the clock went backwards, the model is still in cooldown. *)
Theorem mark_model_failed_resets_window model h e :
  let h1 := (mark_model_failed model h e).1.2 in
  _failed_models h1 !! model = Some (clock (ticks e)) ∧
  provider h1 = provider h ∧
  (∀ other, other ≠ model →
            _failed_models h1 !! other = _failed_models h !! other) ∧
  (∀ e2, (is_model_available model h1 e2).1.1
         = Ok (bool_decide (clock (ticks e2) - clock (ticks e) > 300))) ∧
  (∀ e2, clock (ticks e2) - clock (ticks e) ≤ 300 →
         is_model_available model h1 e2 = (Ok false, h1, tick e2)).
Proof.
  rewrite mark_model_failed_run. cbn [fst snd].
  split; [|split; [|split; [|split]]].
  - apply lookup_insert_eq.
  - done.
  - intros other Hne. by apply lookup_insert_ne.
  - intros e2. rewrite is_model_available_run. cbn.
    rewrite lookup_insert_eq. unfold _failure_timeout.
    by case_bool_decide.
  - intros e2 Hwithin. rewrite is_model_available_run. cbn.
    rewrite lookup_insert_eq.
    by rewrite bool_decide_eq_false_2 by (unfold _failure_timeout; lia).
Qed.

(** X8.  Availability, once answered, stays: after a query answered true
    the model has no entry, and every further query answers true without
    reading the clock and without touching the tracker.  A model that was
    never marked is available in the same way. *)
Theorem available_stays_available :
  (∀ model h e, _failed_models h !! model = None →
                is_model_available model h e = (Ok true, h, e)) ∧
  (∀ model h e h' e',
     is_model_available model h e = (Ok true, h', e') →
     _failed_models h' !! model = None ∧
     ∀ e2, is_model_available model h' e2 = (Ok true, h', e2)).
Proof.
  assert (∀ model h e, _failed_models h !! model = None →
                       is_model_available model h e = (Ok true, h, e))
    as Hfree.
  { intros model h e Hnone. rewrite is_model_available_run. by rewrite Hnone. }
  split; [exact Hfree|].
  intros model h e h' e'. rewrite is_model_available_run.
  destruct (_failed_models h !! model) as [failed_at|] eqn:Hentry.
  - case_bool_decide; [|done]. intros [= <- <-].
    split; [apply lookup_delete_eq|].
    intros e2. apply Hfree. apply lookup_delete_eq.
  - intros [= <- <-]. split; [done|]. intros e2. by apply Hfree.
Qed.

(** X9.  [get_next_available_model] removes at most one entry from the
    cooldown map, that of the model it returns; when it returns [None] or
    raises, the map is the one it found. *)
Theorem get_next_available_model_frame current_model h e r h' e' :
  get_next_available_model current_model h e = (r, h', e') →
  _failed_models h' =
    match r with
    | Ok (Some model) => delete model (_failed_models h)
    | Ok None | Raise _ => _failed_models h
    end.
Proof.
  unfold get_next_available_model, bind at 1, on_provider.
  destruct (get_fallback_models current_model (provider h) e)
    as [[[names|x] p1] e1]; [|by intros [= <- <- <-]].
  intros Hloop.
  destruct (first_available_run names
              {| provider := p1; _failed_models := _failed_models h |} e1)
    as (r0 & h2 & e2 & Hrun & _ & _ & _ & Hr).
  rewrite Hloop in Hrun. injection Hrun as -> <- <-.
  destruct r0 as [model|].
  - by destruct Hr as (_ & _ & _ & _ & _ & ->).
  - by destruct Hr as [-> _].
Qed.

(** * Further properties of the module's functions *)

(** The comprehension of [get_litellm_model_list] succeeds exactly on
    elements that are all descriptors with an id, and then lists these ids,
    each behind the prefix. *)
Lemma litellm_names_of_ids models ids :
  mapM id_of models = Some ids →
  litellm_names models = Ok (String.append "github/" <$> ids).
Proof.
  revert ids. induction models as [|[m|v] rest IH]; intros ids; cbn.
  - by intros [= <-].
  - unfold getitem. destruct (m !! "id") as [i|]; [|done]. cbn.
    destruct (mapM id_of rest) as [ids'|]; [|done]. cbn.
    intros [= <-]. by rewrite (IH _ eq_refl).
  - done.
Qed.

Lemma litellm_names_raises models :
  mapM id_of models = None → ∃ x, litellm_names models = Raise x.
Proof.
  induction models as [|[m|v] rest IH]; cbn.
  - done.
  - unfold getitem. destruct (m !! "id") as [i|]; [|by eexists]. cbn.
    destruct (mapM id_of rest) as [ids'|]; [done|]. intros _.
    destruct (IH eq_refl) as [x ->]. by eexists.
  - by eexists.
Qed.

Lemma ids_of_catalog (models : catalog) :
  identified models →
  mapM id_of (Model <$> models)
    = Some (omap (λ m : descriptor, m !! "id") models).
Proof.
  induction 1 as [|model rest [i Hi] _ IH]; [done|].
  cbn. rewrite Hi. cbn. by rewrite IH.
Qed.

(** X10.  With a key other than the shared provider's, or with no shared
    provider yet, [get_github_models_for_litellm] builds a provider for the
    key, whose cache is empty: one request is sent whatever the old
    provider had cached, and the result is made of the answer alone.  It
    is the list of the ids of the body, each behind [github/], in the order
    of the body, when the body is an array of descriptors that all carry
    an id; it is the empty list in every other case: the request fails,
    the body does not decode, is not an array, or holds an element that is
    not a descriptor with an id. *)
Theorem get_github_models_for_litellm_new_key key g e :
  (∀ q, g = Some q → api_key q ≠ key) →
  (∃ p',
     get_github_models_for_litellm key g e
     = (Ok (names_of_response (network (fetches e))), Some p',
        request (tick e)) ∧
     api_key p' = key) ∧
  (∀ models,
     network (fetches e) = Body (Catalog models) →
     identified models →
     names_of_response (network (fetches e))
     = String.append "github/" <$> omap (λ m : descriptor, m !! "id") models).
Proof.
  intros Hother. split.
  - assert ((p <~ get_github_provider key ;;
             on_global p get_litellm_model_list) g e
            = on_global (new_provider key) get_litellm_model_list
                (Some (new_provider key)) e) as Hbuilt.
    { unfold bind at 1, get_github_provider, bind at 1, get. cbn.
      destruct g as [q|]; [|done].
      destruct (String.eqb_spec (api_key q) key) as [Hsame|_]; [|done].
      by destruct (Hother q eq_refl). }
    unfold get_github_models_for_litellm, try_except. rewrite Hbuilt.
    unfold on_global, get_litellm_model_list, bind, lift.
    rewrite get_available_models_miss by done. unfold names_of_response.
    destruct (network (fetches e)) as [| | | | |[items|fields|s|x]]; cbn;
      try by eexists.
    + destruct (mapM id_of items) as [ids|] eqn:Hids.
      * rewrite (litellm_names_of_ids _ _ Hids). by eexists.
      * destruct (litellm_names_raises _ Hids) as [x ->]. by eexists.
    + destruct fields; by eexists.
    + destruct s; by eexists.
  - intros models Hbody Hid. rewrite Hbody. unfold names_of_response, Catalog.
    by rewrite ids_of_catalog.
Qed.

(** * How the operations compose *)

Lemma other_ids_of_lone_model id tier (models : catalog) :
  Forall (λ m : descriptor, m !! "id" = Some id) models →
  other_ids_in_tier id tier models = [].
Proof.
  intros Hlone. unfold other_ids_in_tier. apply filter_none.
  intros i [m [[_ Hm]%list_elem_of_filter Hi]]%list_elem_of_omap.
  apply (proj1 (Forall_forall _ _) Hlone) in Hm. congruence.
Qed.

(** X11.  No fallback for a model that the catalog does not know, nor for
    one that is alone in the catalog: [get_next_available_model] returns
    [None], whatever the cooldown map holds, and leaves that map as it
    was. *)
Theorem no_fallback_without_another_model :
  (∀ current_model h e models p1 e1,
     get_available_models false (provider h) e = (Ok (Catalog models), p1, e1) →
     identified models →
     (∀ m, m ∈ models → m !! "id" ≠ Some (strip_github current_model)) →
     get_next_available_model current_model h e =
       (Ok None, {| provider := p1; _failed_models := _failed_models h |},
        e1)) ∧
  (∀ current_model h e model models p1 e1 p2 e2,
     get_available_models false (provider h) e
       = (Ok (Catalog (model :: models)), p1, e1) →
     get_available_models false p1 e1
       = (Ok (Catalog (model :: models)), p2, e2) →
     Forall (λ m : descriptor, m !! "id" = Some (strip_github current_model))
       (model :: models) →
     get_next_available_model current_model h e =
       (Ok None, {| provider := p2; _failed_models := _failed_models h |},
        e2)).
Proof.
  split.
  - intros current_model h e models p1 e1 Hserved Hid Hunknown.
    assert (get_fallback_models current_model (provider h) e
            = (Ok [], p1, e1)) as Hnone.
    { apply (get_fallback_models_unknown _ _ _ _ _ _ Hserved Hid).
      apply list_find_None, Forall_forall. intros m Hm. by apply Hunknown. }
    unfold get_next_available_model, bind.
    by rewrite (on_provider_run _ _ _ _ _ _ Hnone).
  - intros current_model h e model models p1 e1 p2 e2 H1 H2 Hlone.
    assert (identified (model :: models)) as Hid.
    { unfold identified. eapply Forall_impl; [exact Hlone|].
      intros m Hm. unfold has_field. rewrite Hm. by eexists. }
    assert (get_fallback_models current_model (provider h) e
            = (Ok [], p2, e2)) as Hnone.
    { rewrite (get_fallback_models_found _ _ _ _ _ _ _ _ _ 0%nat model
                 H1 H2 Hid Hid).
      - by rewrite other_ids_of_lone_model.
      - cbn. rewrite decide_True; [done|].
        by apply Forall_cons in Hlone as [? _]. }
    unfold get_next_available_model, bind.
    by rewrite (on_provider_run _ _ _ _ _ _ Hnone).
Qed.

(** X12.  With the endpoint down and an expired snapshot, the fallbacks
    are those of the expired snapshot: both look-ups of
    [get_fallback_models] send a request, both fail, both fall back on the
    snapshot, and the provider is left as it was. *)
Theorem fallbacks_from_stale_snapshot current i info models p e :
  _models_cache p = Some (Catalog models) →
  cached false p (clock (ticks e)) = None →
  cached false p (clock (S (ticks e))) = None →
  network (fetches e) = TransportError ∨ network (fetches e) = StatusError →
  network (S (fetches e)) = TransportError ∨
    network (S (fetches e)) = StatusError →
  identified models →
  list_find (λ m : descriptor, m !! "id" = Some current) models
    = Some (i, info) →
  get_fallback_models (litellm_name current) p e =
    (Ok (litellm_name <$>
           other_ids_in_tier current
             (default "low" (info !! "rate_limit_tier")) models),
     p, request (tick (request (tick e)))).
Proof.
  intros Hcache Hmiss1 Hmiss2 Hdown1 Hdown2 Hid Hfind.
  assert (or_empty (_models_cache p) = Catalog models) as Hstale.
  { rewrite Hcache. by destruct models. }
  assert (get_available_models false p e
          = (Ok (Catalog models), p, request (tick e))) as H1.
  { rewrite (get_available_models_miss _ _ _ Hmiss1), Hstale.
    by destruct Hdown1 as [-> | ->]. }
  assert (get_available_models false p (request (tick e))
          = (Ok (Catalog models), p, request (tick (request (tick e)))))
    as H2.
  { rewrite (get_available_models_miss false p (request (tick e)) Hmiss2).
    rewrite Hstale. cbn [fetches request tick].
    by destruct Hdown2 as [-> | ->]. }
  rewrite <- (strip_github_litellm_name current) in Hfind.
  rewrite (get_fallback_models_found _ _ _ _ _ _ _ _ _ _ _
             H1 H2 Hid Hid Hfind).
  by rewrite strip_github_litellm_name.
Qed.

End GitHubModels.

(** * The scenarios, run *)

(** ** Runs that meet the hypotheses of the theorems *)

Lemma get_fallback_models_same_tier_witness :
  get_fallback_models (frozen 0) (serving example_catalog)
    "github/openai/gpt-4.1" fresh_provider start =
  (Ok ["github/meta/llama-3.3-70b-instruct";
       "github/mistral-ai/mistral-large-2411"],
   warm_provider, {| ticks := 2; fetches := 1 |}).
Proof.
  apply (proj2 (get_fallback_models_same_tier (frozen 0)
                  (serving example_catalog))
           fresh_provider start warm_provider {| ticks := 1; fetches := 1 |});
    reflexivity.
Defined.

Lemma get_next_available_model_first_witness :
  ∃ h' e',
    (mark_model_failed (frozen 0) "github/meta/llama-3.3-70b-instruct" ;;;
     get_next_available_model (frozen 0) (serving example_catalog)
       "github/openai/gpt-4.1") fresh_handler start
    = (Ok (Some "github/mistral-ai/mistral-large-2411"), h', e').
Proof.
  apply (proj2 (get_next_available_model_first (frozen 0)
                  (serving example_catalog)) 0 start);
    intros n; reflexivity.
Defined.

Lemma get_fallback_models_default_tier_witness :
  get_fallback_models (frozen 0) (serving untiered_catalog)
    "github/openai/gpt-4.1" fresh_provider start =
  (Ok ["github/openai/gpt-4o-mini"],
   {| api_key := "test-token";
      _models_cache := Some (Catalog untiered_catalog);
      _cache_timestamp := Some 0 |},
   {| ticks := 2; fetches := 1 |}).
Proof.
  apply (get_fallback_models_default_tier (frozen 0)
           (serving untiered_catalog) "openai/gpt-4.1" 0%nat
           {[ "id" := "openai/gpt-4.1" ]} untiered_catalog
           fresh_provider start
           {| api_key := "test-token";
              _models_cache := Some (Catalog untiered_catalog);
              _cache_timestamp := Some 0 |}
           {| ticks := 1; fetches := 1 |});
    try reflexivity.
  unfold identified. repeat (constructor; [by eexists|]). constructor.
Defined.

Lemma fetch_failure_keeps_snapshot_witness :
  get_available_models (frozen 1000) down false warm_provider start
    = (Ok (Catalog example_catalog), warm_provider,
       {| ticks := 1; fetches := 1 |})
  ∧ get_available_models (frozen 1000) down false fresh_provider start
    = (Ok (Array []), fresh_provider, {| ticks := 1; fetches := 1 |}).
Proof.
  split.
  - apply (fetch_failure_keeps_snapshot (frozen 1000) down false
             warm_provider start); [reflexivity|by left].
  - apply (fetch_failure_keeps_snapshot (frozen 1000) down false
             fresh_provider start); [reflexivity|by left].
Defined.

Lemma one_fetch_within_window_witness :
  one_fetch_same_snapshot (frozen 0) (serving example_catalog)
    fresh_provider start.
Proof.
  apply (one_fetch_within_window (frozen 0) (serving example_catalog)
           fresh_provider start (Model <$> example_catalog));
    [reflexivity|reflexivity|unfold frozen, _cache_ttl; lia].
Defined.

Lemma cooldown_expiry_witness :
  (mark_model_failed test_clock "github/openai/gpt-4.1" ;;;
   is_model_available test_clock "github/openai/gpt-4.1") fresh_handler start
    = (Ok false,
       {| provider := fresh_provider;
          _failed_models := {[ "github/openai/gpt-4.1" := 0 ]} |},
       {| ticks := 2; fetches := 0 |}) ∧
  is_model_available test_clock "github/openai/gpt-4.1"
    {| provider := fresh_provider;
       _failed_models := {[ "github/openai/gpt-4.1" := 0 ]} |}
    {| ticks := 2; fetches := 0 |}
    = (Ok true,
       {| provider := fresh_provider;
          _failed_models := delete "github/openai/gpt-4.1"
                              {[ "github/openai/gpt-4.1" := 0 ]} |},
       {| ticks := 3; fetches := 0 |}).
Proof.
  destruct (cooldown_expiry test_clock "github/openai/gpt-4.1"
              fresh_handler start eq_refl)
    as (Hmark & H100 & H301 & _).
  split.
  - unfold bind. rewrite Hmark.
    apply (H100 {| ticks := 1; fetches := 0 |}). reflexivity.
  - apply (H301 {| ticks := 2; fetches := 0 |}). reflexivity.
Defined.

Lemma expired_entry_evicted_on_read_witness :
  (is_model_available (frozen 301) "github/meta/llama-3.3-70b-instruct"
     cooling_handler start).1.1 = Ok true ∧
  _failed_models
    (is_model_available (frozen 301) "github/meta/llama-3.3-70b-instruct"
       cooling_handler start).1.2
    !! "github/meta/llama-3.3-70b-instruct" = None.
Proof.
  apply (proj1 (proj1 (expired_entry_evicted_on_read (frozen 301) down)
                  "github/meta/llama-3.3-70b-instruct" cooling_handler start
                  _ _ _ eq_refl) 0); [reflexivity|].
  unfold frozen, _failure_timeout. lia.
Defined.

Lemma tier_partition_witness :
  get_models_by_tier (frozen 0) (serving example_catalog) "low"
    fresh_provider start
    = (Ok [{[ "id" := "openai/gpt-4o-mini"; "rate_limit_tier" := "low" ]}],
       warm_provider, {| ticks := 1; fetches := 1 |}) ∧
  concat ((λ tier, filter (in_tier tier) example_catalog) <$> ["low"; "high"])
    ≡ₚ example_catalog.
Proof.
  pose proof (tier_partition (frozen 0) (serving example_catalog)
                fresh_provider start example_catalog warm_provider
                {| ticks := 1; fetches := 1 |} eq_refl)
    as (Hexact & _ & _ & Hcover).
  split.
  - apply (Hexact "low").
  - apply Hcover.
    + repeat (constructor; [by eexists|]). constructor.
    + apply NoDup_cons. split; [|apply NoDup_singleton].
      by intros Hin%list_elem_of_singleton.
    + intros m tier Hm Htier. unfold in_tier in Htier.
      repeat (apply elem_of_cons in Hm as [->|Hm];
              [injection Htier as <-; by repeat constructor|]).
      by inversion Hm.
Defined.

Lemma is_model_available_frame_witness :
  _failed_models
    (is_model_available (frozen 301) "github/meta/llama-3.3-70b-instruct"
       cooling_handler start).1.2
  ⊆ _failed_models cooling_handler.
Proof.
  eapply (is_model_available_frame (frozen 301)
            "github/meta/llama-3.3-70b-instruct" cooling_handler start).
  reflexivity.
Defined.



(** ** Runs that refute the statements as first worded *)

(** C3, as worded: the current model has no tier, and the one candidate
    returned is the model of tier "low". *)
Lemma low_default_filters_candidates :
  default ∅ (head untiered_catalog) !! "rate_limit_tier" = None ∧
  (get_fallback_models (frozen 0) (serving untiered_catalog)
     "github/openai/gpt-4.1" fresh_provider start).1.1
    = Ok ["github/openai/gpt-4o-mini"] ∧
  ¬ low_default_unused (frozen 0) (serving untiered_catalog)
      untiered_catalog "github/openai/gpt-4.1" fresh_provider start.
Proof.
  split; [reflexivity|]. split; [reflexivity|].
  intros Hunused.
  eapply (Hunused _ _ _ eq_refl
            {[ "id" := "openai/gpt-4o-mini"; "rate_limit_tier" := "low" ]}
            "openai/gpt-4o-mini").
  - apply list_elem_of_further, list_elem_of_here.
  - reflexivity.
  - reflexivity.
  - apply list_elem_of_here.
Qed.


(** C6, as worded: the endpoint is down for the first call; both calls
    send a request and the second returns another snapshot.  And with a
    snapshot that is fresh at both calls, no request is sent at all. *)
Lemma failed_fetch_is_repeated :
  frozen 0 1%nat - frozen 0 0%nat < _cache_ttl ∧
  (get_available_models (frozen 0) (outage_then example_catalog) false
     fresh_provider start)
    = (Ok (Array []), fresh_provider, {| ticks := 1; fetches := 1 |}) ∧
  (get_available_models (frozen 0) (outage_then example_catalog) false
     fresh_provider {| ticks := 1; fetches := 1 |})
    = (Ok (Catalog example_catalog), warm_provider,
       {| ticks := 2; fetches := 2 |}) ∧
  ¬ one_fetch_same_snapshot (frozen 0) (outage_then example_catalog)
      fresh_provider start ∧
  ¬ one_fetch_same_snapshot (frozen 0) (serving example_catalog)
      warm_provider start.
Proof.
  split; [reflexivity|]. split; [reflexivity|]. split; [reflexivity|].
  split; intros Hone; vm_compute in Hone; destruct Hone as [Hfetches _];
    discriminate.
Qed.

(** C9, as worded: a model without a tier is in the answer for no tier. *)
Lemma untiered_model_in_no_tier :
  ¬ tiers_cover_catalog (frozen 0) (serving untiered_catalog)
      fresh_provider start.
Proof.
  intros Hcover.
  destruct (Hcover untiered_catalog _ _ eq_refl {[ "id" := "openai/gpt-4.1" ]})
    as (tier & tier_models & p' & e' & Hrun & Hin).
  { apply list_elem_of_here. }
  rewrite (get_models_by_tier_catalog (frozen 0) (serving untiered_catalog)
             tier fresh_provider start untiered_catalog _ _ eq_refl) in Hrun.
  injection Hrun as <- _ _.
  apply list_elem_of_filter in Hin as [Htier _].
  unfold in_tier in Htier. by rewrite lookup_singleton_ne in Htier.
Qed.

(** * The provider's address *)

Lemma append_cons c s t : String c s +:+ t = String c (s +:+ t).
Proof. reflexivity. Qed.

Lemma rstrip_slash_appended base_url :
  rstrip_slash (base_url +:+ "/") = rstrip_slash base_url.
Proof.
  induction base_url as [|c rest IH]; [done|].
  rewrite append_cons. cbn [rstrip_slash]. by rewrite IH.
Qed.

Lemma rstrip_slash_no_slash base_url t : rstrip_slash base_url ≠ t +:+ "/".
Proof.
  revert t. induction base_url as [|c rest IH]; intros t.
  { by destruct t. }
  cbn [rstrip_slash].
  destruct (rstrip_slash rest) as [|c' rest'] eqn:Hrest.
  - destruct (String.eqb_spec (String c EmptyString) "/") as [Hc|Hc].
    + by destruct t.
    + destruct t as [|c2 t]; [done|]. rewrite append_cons.
      intros [= _ Ht]. by destruct t.
  - destruct t as [|c2 t]; [done|]. rewrite append_cons.
    intros [= _ Ht]. by apply (IH t).
Qed.

Lemma rstrip_slash_fixed base_url :
  (∀ t, base_url ≠ t +:+ "/") → rstrip_slash base_url = base_url.
Proof.
  induction base_url as [|c rest IH]; intros Hno; [done|].
  cbn [rstrip_slash]. rewrite IH.
  - destruct rest as [|c' rest']; [|done].
    destruct (String.eqb_spec (String c EmptyString) "/") as [Hc|Hc]; [|done].
    by destruct (Hno EmptyString).
  - intros t ->. by apply (Hno (String c t)).
Qed.

(** X13.  The provider keeps its base address without trailing slashes:
    what [__init__] stores never ends with a slash, an address that does
    not end with one is stored as it is, and stripping is idempotent; so
    the catalog address is the same with and without a slash at the end of
    [base_url]. *)
Theorem base_url_without_trailing_slash :
  (∀ base_url t, rstrip_slash base_url ≠ t +:+ "/") ∧
  (∀ base_url, (∀ t, base_url ≠ t +:+ "/") →
               rstrip_slash base_url = base_url) ∧
  (∀ base_url, rstrip_slash (rstrip_slash base_url) = rstrip_slash base_url) ∧
  (∀ base_url, catalog_url (base_url +:+ "/") = catalog_url base_url).
Proof.
  split; [|split; [|split]].
  - apply rstrip_slash_no_slash.
  - apply rstrip_slash_fixed.
  - intros base_url. apply rstrip_slash_fixed.
    intros t. apply rstrip_slash_no_slash.
  - intros base_url. unfold catalog_url. by rewrite rstrip_slash_appended.
Qed.

(** * LiteLLM configuration *)

Lemma find_config_entry model_name name model rest :
  find_config model_name (github_entry name model :: rest) =
    if bool_decide (name = model_name) then Ok (Some (github_params model))
    else find_config model_name rest.
Proof.
  cbn [find_config].
  change (getitem_config (github_entry name model) "model_name")
    with (Ok (VStr name)).
  change (getitem_config (github_entry name model) "litellm_params")
    with (Ok (github_params model)).
  cbn [rbind]. do 2 case_bool_decide; congruence.
Qed.

(** X14.  [get_github_model_config] is decided by the prefix alone: for
    every name that starts with [github/], in the table or not, the
    parameters are the GitHub ones with the model set to the name without
    its prefix, so for a LiteLLM name the model is the catalog id; for
    every other name the result is the empty dict. *)
Theorem get_github_model_config_by_prefix :
  (∀ model_name,
     get_github_model_config model_name =
       Ok (if startswith model_name "github/"
           then github_params (slice_from 7 model_name)
           else VDict ∅)) ∧
  (∀ id, get_github_model_config (litellm_name id) = Ok (github_params id)) ∧
  (∀ model_name, is_github_model model_name = false →
                 get_github_model_config model_name = Ok (VDict ∅)).
Proof.
  assert (∀ model_name,
     get_github_model_config model_name =
       Ok (if startswith model_name "github/"
           then github_params (slice_from 7 model_name)
           else VDict ∅)) as Hprefix.
  { intros model_name.
    unfold get_github_model_config, GITHUB_MODELS_CONFIG.
    rewrite !find_config_entry.
    repeat (case_bool_decide as Hname; [by rewrite <- Hname|clear Hname]).
    cbn. by destruct (startswith model_name "github/"). }
  split; [exact Hprefix|]. split.
  - intros id. rewrite Hprefix.
    fold (is_github_model (litellm_name id)).
    by rewrite is_github_model_litellm_name.
  - intros model_name Hno. rewrite Hprefix.
    unfold is_github_model in Hno. by rewrite Hno.
Qed.

Lemma registered_app models models' :
  registered (models ++ models') = registered models ++ registered models'.
Proof. apply omap_app. Qed.

Lemma all_configs_app models models' :
  all_configs (models ++ models') ↔ all_configs models ∧ all_configs models'.
Proof. apply Forall_app. Qed.

Lemma any_named_configs name models :
  all_configs models →
  any_named name models = Some (bool_decide (name ∈ registered models)).
Proof.
  induction models as [|[s|c] rest IH]; intros Hall.
  - cbn. rewrite bool_decide_eq_false_2; [done|]. by intros Hin; inversion Hin.
  - by inversion Hall.
  - apply Forall_cons in Hall as [_ Hrest].
    cbn [any_named registered omap list_omap].
    fold (registered rest).
    destruct (decide (c !! "model_name" = Some name)) as [Hname|Hname].
    + rewrite (bool_decide_eq_true_2 _ Hname), Hname.
      rewrite bool_decide_eq_true_2; [done|]. by left.
    + rewrite (bool_decide_eq_false_2 _ Hname), (IH Hrest). f_equal.
      apply bool_decide_ext.
      destruct (c !! "model_name") as [v|]; [|done].
      rewrite elem_of_cons. split; [by right|].
      intros [->|?]; [done|done].
Qed.

Lemma any_named_meets_name name configs s rest :
  all_configs configs →
  name ∉ registered configs →
  any_named name (configs ++ Name s :: rest) = None.
Proof.
  induction configs as [|[s'|c] configs IH]; intros Hall Hnew; [done| |].
  - by inversion Hall.
  - apply Forall_cons in Hall as [_ Hrest]. cbn in Hnew |- *.
    destruct (c !! "model_name") as [v|] eqn:Hv.
    + apply not_elem_of_cons in Hnew as [Hne Hnew].
      rewrite bool_decide_eq_false_2 by congruence. by apply IH.
    + rewrite bool_decide_eq_false_2 by done. by apply IH.
Qed.

(** A table whose names are all registered adds nothing. *)
Lemma register_models_present table models :
  all_configs models →
  Forall keyed table →
  (∀ c n, c ∈ table → c !! "model_name" = Some n → n ∈ registered models) →
  register_models table models = (true, models).
Proof.
  intros Hall Hkeyed. induction Hkeyed as [|c rest [[n Hn] [ps Hps]] _ IH];
    intros Hpresent; [done|].
  cbn [register_models]. rewrite Hn, Hps, (any_named_configs _ _ Hall).
  rewrite bool_decide_eq_true_2 by (eapply Hpresent; [by left|done]).
  apply IH. intros c' n' Hc'. apply Hpresent. by right.
Qed.

(** On a list of dicts the loop runs to its end and appends, in the order
    of the table, entries under names not registered before; afterwards
    every name of the table is registered. *)
Lemma register_models_configs table models :
  all_configs models →
  Forall keyed table →
  ∃ added,
    register_models table models = (true, models ++ (Config <$> added)) ∧
    added `sublist_of` table ∧
    (∀ c n, c ∈ table → c !! "model_name" = Some n →
            n ∈ registered (models ++ (Config <$> added))) ∧
    (∀ c n, c ∈ added → c !! "model_name" = Some n → n ∉ registered models).
Proof.
  intros Hall Hkeyed. revert models Hall.
  induction Hkeyed as [|c rest [[n Hn] [ps Hps]] _ IH]; intros models Hall.
  { exists []. cbn. rewrite app_nil_r. repeat split; auto.
    - intros c n Hc. by inversion Hc.
    - intros c n Hc. by inversion Hc. }
  cbn [register_models]. rewrite Hn, Hps, (any_named_configs _ _ Hall).
  case_bool_decide as Hin.
  - destruct (IH models Hall) as (added & Hrun & Hsub & Hreg & Hnew).
    exists added. split; [done|]. split; [by apply sublist_cons|].
    split; [|done].
    intros c' n' [->|Hc']%elem_of_cons Hn'; [|by eapply Hreg].
    rewrite Hn in Hn'. injection Hn' as <-.
    rewrite registered_app. apply elem_of_app. by left.
  - destruct (IH (models ++ [Config c])) as (added & Hrun & Hsub & Hreg & Hnew).
    { apply all_configs_app. split; [done|]. by repeat constructor. }
    exists (c :: added). rewrite Hrun, <- app_assoc. cbn.
    split; [done|]. split; [by apply sublist_skip|]. split.
    + intros c' n' [->|Hc']%elem_of_cons Hn'.
      * rewrite Hn in Hn'. injection Hn' as <-.
        rewrite registered_app. apply elem_of_app. right.
        cbn. rewrite Hn. by left.
      * specialize (Hreg c' n' Hc' Hn').
        by rewrite <- app_assoc in Hreg.
    + intros c' n' [->|Hc']%elem_of_cons Hn'.
      * rewrite Hn in Hn'. by injection Hn' as <-.
      * intros Hold. eapply (Hnew c' n' Hc' Hn').
        rewrite registered_app. apply elem_of_app. by left.
Qed.

Lemma GITHUB_MODELS_CONFIG_keyed : Forall keyed GITHUB_MODELS_CONFIG.
Proof.
  unfold GITHUB_MODELS_CONFIG.
  repeat (constructor; [split; by eexists|]). constructor.
Qed.

(** X15.  On a [litellm.model_list] that holds configuration dicts,
    [configure_litellm_for_github] returns True and sets
    [github_api_base]; the entries that were there stay, in place; what it
    appends are entries of the table, in the table's order, under names not
    registered before; afterwards every name of the table is registered;
    and a second call changes nothing. *)
Theorem configure_litellm_registers models api :
  all_configs models →
  ∃ added,
    let configured :=
      Some {| model_list := Some (models ++ (Config <$> added));
              github_api_base := Some "https://models.github.ai/v1" |} in
    configure_litellm_for_github
      (Some {| model_list := Some models; github_api_base := api |})
      = (true, configured) ∧
    added `sublist_of` GITHUB_MODELS_CONFIG ∧
    (∀ c n, c ∈ GITHUB_MODELS_CONFIG → c !! "model_name" = Some n →
            n ∈ registered (models ++ (Config <$> added))) ∧
    (∀ c n, c ∈ added → c !! "model_name" = Some n → n ∉ registered models) ∧
    configure_litellm_for_github configured = (true, configured).
Proof.
  intros Hall.
  destruct (register_models_configs GITHUB_MODELS_CONFIG models Hall
              GITHUB_MODELS_CONFIG_keyed)
    as (added & Hrun & Hsub & Hreg & Hnew).
  exists added. cbn zeta. split; [|split; [|split; [|split]]]; try done.
  - unfold configure_litellm_for_github. cbn [model_list]. by rewrite Hrun.
  - unfold configure_litellm_for_github. cbn [model_list].
    rewrite register_models_present; [done| |apply GITHUB_MODELS_CONFIG_keyed|done].
    apply all_configs_app. split; [done|].
    apply Forall_fmap, Forall_true. by intros c.
Qed.

Lemma register_models_entry name model rest models :
  register_models (github_entry name model :: rest) models =
    match any_named (VStr name) models with
    | Some true => register_models rest models
    | Some false =>
        register_models rest (models ++ [Config (github_entry name model)])
    | None => (false, models)
    end.
Proof.
  cbn [register_models].
  change (github_entry name model !! "model_name") with (Some (VStr name)).
  by change (github_entry name model !! "litellm_params")
    with (Some (github_params model)).
Qed.

(** X16.  When [litellm.model_list] holds a model name (a [str]) and the
    dicts before it do not register the first name of the table,
    [configure_litellm_for_github] returns False and leaves the module as
    it was: nothing is appended and [github_api_base] is not set.  So it
    is, in particular, for every non-empty list of model names. *)
Theorem configure_litellm_meets_a_name :
  (∀ configs s rest api,
     all_configs configs →
     VStr "github/openai/gpt-4.1" ∉ registered configs →
     let litellm :=
       Some {| model_list := Some (configs ++ Name s :: rest);
               github_api_base := api |} in
     configure_litellm_for_github litellm = (false, litellm)) ∧
  (∀ s rest api,
     let litellm :=
       Some {| model_list := Some (Name s :: rest); github_api_base := api |} in
     configure_litellm_for_github litellm = (false, litellm)).
Proof.
  assert (∀ configs s rest api,
     all_configs configs →
     VStr "github/openai/gpt-4.1" ∉ registered configs →
     let litellm :=
       Some {| model_list := Some (configs ++ Name s :: rest);
               github_api_base := api |} in
     configure_litellm_for_github litellm = (false, litellm)) as Hname.
  { intros configs s rest api Hall Hnew. cbn zeta.
    unfold configure_litellm_for_github, GITHUB_MODELS_CONFIG.
    cbn [model_list github_api_base].
    rewrite register_models_entry.
    by rewrite (any_named_meets_name _ _ _ _ Hall Hnew). }
  split; [exact Hname|].
  intros s rest api. apply (Hname [] s rest api); [constructor|].
  by intros Hin; inversion Hin.
Qed.

(** * The module's shared objects *)

Lemma get_github_provider_shared key g id p g1 :
  Singletons.built g →
  Singletons.get_github_provider key g = ((id, p), g1) →
  Singletons.built g1 ∧
  Singletons._github_provider g1 = Some (id, p) ∧
  api_key p = key ∧
  Singletons._rate_limit_handler g1 = Singletons._rate_limit_handler g ∧
  (g1 = g ∨
   (id = Singletons.next_object g ∧ p = new_provider key ∧
    Singletons.next_object g1 = S (Singletons.next_object g))) ∧
  Singletons.get_github_provider key g1 = ((id, p), g1).
Proof.
  intros Hbuilt. pose proof Hbuilt as [Hp Hh].
  unfold Singletons.get_github_provider at 1.
  assert (∀ g1,
    ((Singletons.next_object g, new_provider key),
     {| Singletons.next_object := S (Singletons.next_object g);
        Singletons._github_provider :=
          Some (Singletons.next_object g, new_provider key);
        Singletons._rate_limit_handler := Singletons._rate_limit_handler g |})
    = ((id, p), g1) →
    Singletons.built g1 ∧
    Singletons._github_provider g1 = Some (id, p) ∧
    api_key p = key ∧
    Singletons._rate_limit_handler g1 = Singletons._rate_limit_handler g ∧
    (g1 = g ∨
     (id = Singletons.next_object g ∧ p = new_provider key ∧
      Singletons.next_object g1 = S (Singletons.next_object g))) ∧
    Singletons.get_github_provider key g1 = ((id, p), g1)) as Hbuild.
  { intros g2 [= <- <- <-]. split; [|split; [|split; [|split; [|split]]]];
      try done.
    - split; cbn.
      + intros ? ? [= <- _]. lia.
      + intros hid hp failed Hsome. destruct (Hh _ _ _ Hsome). lia.
    - right. done.
    - unfold Singletons.get_github_provider. cbn.
      by rewrite String.eqb_refl. }
  destruct (Singletons._github_provider g) as [[id0 p0]|] eqn:Hshared;
    [|apply Hbuild].
  destruct (String.eqb_spec (api_key p0) key) as [Hkey|Hkey]; [|apply Hbuild].
  intros [= <- <- <-]. split; [done|]. split; [done|]. split; [done|].
  split; [done|]. split; [by left|].
  unfold Singletons.get_github_provider. rewrite Hshared, Hkey.
  by rewrite String.eqb_refl.
Qed.

(** X17.  The module's provider and handler are kept: after
    [get_rate_limit_handler] for a key, the shared provider is one built
    for that key, the handler returned is the shared handler, and its
    provider is the shared provider object.  Asking again with the same key
    returns the same two objects, cooldown map included, and builds
    nothing. *)
Theorem shared_objects_are_kept key g h g1 :
  Singletons.built g →
  Singletons.get_rate_limit_handler key g = (h, g1) →
  Singletons.built g1 ∧
  Singletons._rate_limit_handler g1 = Some h ∧
  (∃ p, Singletons._github_provider g1 = Some (h.1.2, p) ∧
        api_key p = key ∧
        Singletons.get_github_provider key g1 = ((h.1.2, p), g1)) ∧
  Singletons.get_rate_limit_handler key g1 = (h, g1).
Proof.
  intros Hbuilt. unfold Singletons.get_rate_limit_handler at 1.
  destruct (Singletons.get_github_provider key g) as [[id p] g0] eqn:Hprov.
  destruct (get_github_provider_shared _ _ _ _ _ Hbuilt Hprov)
    as (Hbuilt0 & Hshared & Hkey & Hsame & _ & Hagain).
  pose proof Hbuilt0 as [Hp0 Hh0].
  assert (∀ h g1,
    ((Singletons.next_object g0, id, ∅),
     {| Singletons.next_object := S (Singletons.next_object g0);
        Singletons._github_provider := Singletons._github_provider g0;
        Singletons._rate_limit_handler :=
          Some (Singletons.next_object g0, id, ∅) |}) = (h, g1) →
    Singletons.built g1 ∧
    Singletons._rate_limit_handler g1 = Some h ∧
    (∃ p, Singletons._github_provider g1 = Some (h.1.2, p) ∧
          api_key p = key ∧
          Singletons.get_github_provider key g1 = ((h.1.2, p), g1)) ∧
    Singletons.get_rate_limit_handler key g1 = (h, g1)) as Hbuild.
  { intros h' g' [= <- <-].
    assert (Singletons.get_github_provider key
              {| Singletons.next_object := S (Singletons.next_object g0);
                 Singletons._github_provider := Singletons._github_provider g0;
                 Singletons._rate_limit_handler :=
                   Some (Singletons.next_object g0, id, ∅) |}
            = ((id, p), {| Singletons.next_object := S (Singletons.next_object g0);
                 Singletons._github_provider := Singletons._github_provider g0;
                 Singletons._rate_limit_handler :=
                   Some (Singletons.next_object g0, id, ∅) |})) as Hprov'.
    { unfold Singletons.get_github_provider. cbn. rewrite Hshared, Hkey.
      by rewrite String.eqb_refl. }
    split; [|split; [done|split]].
    - split; cbn.
      + intros id' p' Hsome. specialize (Hp0 _ _ Hsome). lia.
      + intros ? ? ? [= <- <- _]. specialize (Hp0 _ _ Hshared). lia.
    - exists p. split; [by cbn|]. split; [done|]. exact Hprov'.
    - unfold Singletons.get_rate_limit_handler. rewrite Hprov'. cbn.
      by rewrite Nat.eqb_refl. }
  destruct (Singletons._rate_limit_handler g0)
    as [[[hid of_provider] failed]|] eqn:Hhandler; [|apply Hbuild].
  destruct (Nat.eqb_spec of_provider id) as [->|Hother]; [|apply Hbuild].
  intros [= <- <-]. split; [done|]. split; [done|]. split.
  - exists p. split; [done|]. split; [done|]. exact Hagain.
  - unfold Singletons.get_rate_limit_handler. rewrite Hagain, Hhandler.
    by rewrite Nat.eqb_refl.
Qed.

(** The handler that [get_rate_limit_handler] returns is the shared one,
    and it and its provider were built before the next object. *)
Lemma shared_objects_kept_aux key g h g1 :
  Singletons.built g →
  Singletons.get_rate_limit_handler key g = (h, g1) →
  Singletons.built g1 ∧
  Singletons._rate_limit_handler g1 = Some h ∧
  (h.1.1 < Singletons.next_object g1 ∧ h.1.2 < Singletons.next_object g1)%nat.
Proof.
  intros Hbuilt. unfold Singletons.get_rate_limit_handler.
  destruct (Singletons.get_github_provider key g) as [[id p] g0] eqn:Hprov.
  destruct (get_github_provider_shared _ _ _ _ _ Hbuilt Hprov)
    as (Hbuilt0 & Hshared & _).
  pose proof Hbuilt0 as [Hp0 Hh0].
  assert (∀ h g1,
    ((Singletons.next_object g0, id, ∅),
     {| Singletons.next_object := S (Singletons.next_object g0);
        Singletons._github_provider := Singletons._github_provider g0;
        Singletons._rate_limit_handler :=
          Some (Singletons.next_object g0, id, ∅) |}) = (h, g1) →
    Singletons.built g1 ∧
    Singletons._rate_limit_handler g1 = Some h ∧
    (h.1.1 < Singletons.next_object g1 ∧
     h.1.2 < Singletons.next_object g1)%nat) as Hbuild.
  { intros h' g' [= <- <-]. specialize (Hp0 _ _ Hshared).
    split; [|split; [done|cbn; lia]]. split; cbn.
    - intros id' p' Hsome. rewrite Hshared in Hsome.
      injection Hsome as <- _. lia.
    - intros ? ? ? [= <- <- _]. lia. }
  destruct (Singletons._rate_limit_handler g0)
    as [[[hid of_provider] failed]|] eqn:Hhandler; [|apply Hbuild].
  destruct (Nat.eqb_spec of_provider id) as [->|Hother]; [|apply Hbuild].
  intros [= <- <-]. split; [done|]. split; [done|]. cbn.
  by apply (Hh0 _ _ _ eq_refl).
Qed.

(** X18.  A change of key rebuilds both objects: when the shared provider
    was built for another key, or there is none,
    [get_rate_limit_handler] returns a new handler with an empty cooldown
    map, on a new provider with an empty cache.  The identity of the
    provider decides: a handler is not taken up again once its provider
    has been replaced, though the key asked be the key of its provider. *)
Theorem key_change_rebuilds :
  (∀ key g,
     Singletons.built g →
     (∀ id p, Singletons._github_provider g = Some (id, p) →
              api_key p ≠ key) →
     let n := Singletons.next_object g in
     Singletons.get_rate_limit_handler key g =
       ((S n, n, ∅),
        {| Singletons.next_object := S (S n);
           Singletons._github_provider := Some (n, new_provider key);
           Singletons._rate_limit_handler := Some (S n, n, ∅) |})) ∧
  (∀ key other g h g1 shared g2 h' g3,
     Singletons.built g →
     other ≠ key →
     Singletons.get_rate_limit_handler key g = (h, g1) →
     Singletons.get_github_provider other g1 = (shared, g2) →
     Singletons.get_rate_limit_handler key g2 = (h', g3) →
     h'.2 = ∅ ∧ h'.1.1 ≠ h.1.1 ∧ h'.1.2 ≠ h.1.2).
Proof.
  assert (∀ key g,
     Singletons.built g →
     (∀ id p, Singletons._github_provider g = Some (id, p) →
              api_key p ≠ key) →
     let n := Singletons.next_object g in
     Singletons.get_rate_limit_handler key g =
       ((S n, n, ∅),
        {| Singletons.next_object := S (S n);
           Singletons._github_provider := Some (n, new_provider key);
           Singletons._rate_limit_handler := Some (S n, n, ∅) |})) as Hswitch.
  { intros key g [Hp Hh] Hother n.
    assert (Singletons.get_github_provider key g
            = ((n, new_provider key),
               {| Singletons.next_object := S n;
                  Singletons._github_provider := Some (n, new_provider key);
                  Singletons._rate_limit_handler :=
                    Singletons._rate_limit_handler g |})) as Hprov.
    { unfold Singletons.get_github_provider.
      destruct (Singletons._github_provider g) as [[id p]|] eqn:Hshared;
        [|done].
      destruct (String.eqb_spec (api_key p) key) as [Hkey|_]; [|done].
      by destruct (Hother _ _ eq_refl). }
    unfold Singletons.get_rate_limit_handler. rewrite Hprov. cbn.
    destruct (Singletons._rate_limit_handler g)
      as [[[hid of_provider] failed]|] eqn:Hhandler; [|done].
    destruct (Nat.eqb_spec of_provider n) as [->|_]; [|done].
    destruct (Hh _ _ _ eq_refl) as [_ Hlt]. unfold n in Hlt. lia. }
  split; [exact Hswitch|].
  intros key other g h g1 shared g2 h' g3 Hbuilt Hne Hfirst Hother Hback.
  destruct (shared_objects_kept_aux key g h g1 Hbuilt Hfirst)
    as (Hbuilt1 & Hh1 & Hlt).
  destruct shared as [sid sp].
  destruct (get_github_provider_shared _ _ _ _ _ Hbuilt1 Hother)
    as (Hbuilt2 & Hshared2 & Hkey2 & Hsame2 & Hstep & _).
  rewrite Hswitch in Hback; [|done|].
  - injection Hback as <- <-. cbn. split; [done|].
    assert (Singletons.next_object g1 ≤ Singletons.next_object g2)%nat.
    { destruct Hstep as [->|(_ & _ & ->)]; lia. }
    lia.
  - intros id p. rewrite Hshared2. intros [= <- <-]. congruence.
Qed.

(** The claims' [get_github_provider], which keeps no identities, is the
    one with identities seen through [snd]. *)
Lemma get_github_provider_identities key g e :
  get_github_provider key (snd <$> Singletons._github_provider g) e =
    (Ok (Singletons.get_github_provider key g).1.2,
     snd <$> Singletons._github_provider (Singletons.get_github_provider key g).2,
     e).
Proof.
  unfold get_github_provider, Singletons.get_github_provider, bind, get.
  destruct (Singletons._github_provider g) as [[id p]|] eqn:Hshared;
    cbn; [|done].
  destruct (String.eqb (api_key p) key); cbn; [|done].
  by rewrite Hshared.
Qed.

Lemma initial_built : Singletons.built Singletons.initial.
Proof. split; cbn; intros; discriminate. Qed.

(** * Further scenarios, run *)

Lemma namespace_round_trip_witness :
  litellm_name (strip_github "github/openai/gpt-4.1") = "github/openai/gpt-4.1"
  ∧ strip_github "openai/gpt-4.1" = "openai/gpt-4.1".
Proof.
  destruct (namespace_round_trip (frozen 0) down) as (_ & Hon & Hoff & _).
  split.
  - apply Hon. reflexivity.
  - apply Hoff. reflexivity.
Defined.

Lemma litellm_model_list_exact_witness :
  (∃ names,
     get_litellm_model_list (frozen 0) (serving example_catalog)
       fresh_provider start
       = (Ok names, warm_provider, {| ticks := 1; fetches := 1 |}) ∧
     length names = length example_catalog ∧
     Forall (λ n, is_github_model n = true) names ∧
     strip_github <$> names
       = omap (λ m : descriptor, m !! "id") example_catalog) ∧
  get_litellm_model_list (frozen 0) (serving nameless_catalog)
    fresh_provider start
    = (Raise (KeyError "id"),
       {| api_key := "test-token";
          _models_cache := Some (Catalog nameless_catalog);
          _cache_timestamp := Some 0 |},
       {| ticks := 1; fetches := 1 |}).
Proof.
  split.
  - apply (litellm_model_list_exact (frozen 0) (serving example_catalog)
             fresh_provider start example_catalog warm_provider
             {| ticks := 1; fetches := 1 |} eq_refl).
    apply example_catalog_identified.
  - apply (litellm_model_list_exact (frozen 0) (serving nameless_catalog)
             fresh_provider start nameless_catalog _ _ eq_refl).
    intros Hid. apply Forall_cons in Hid as [[i Hi] _].
    vm_compute in Hi. discriminate.
Defined.

Lemma get_fallback_models_unknown_model_witness :
  get_fallback_models (frozen 0) (serving example_catalog)
    "github/unknown/model" fresh_provider start
  = (Ok [], warm_provider, {| ticks := 1; fetches := 1 |}).
Proof.
  apply (get_fallback_models_unknown_model (frozen 0)
           (serving example_catalog) "github/unknown/model"
           fresh_provider start example_catalog);
    [reflexivity|apply example_catalog_identified|].
  intros m Hm.
  repeat (apply elem_of_cons in Hm as [->|Hm];
          [intros Hid; vm_compute in Hid; discriminate|]).
  by inversion Hm.
Defined.

Lemma fallback_is_another_model_witness :
  is_github_model "github/meta/llama-3.3-70b-instruct" = true ∧
  strip_github "github/meta/llama-3.3-70b-instruct"
    ≠ strip_github "github/openai/gpt-4.1" ∧
  "github/meta/llama-3.3-70b-instruct" ≠ "github/openai/gpt-4.1".
Proof.
  apply (proj1 (fallback_is_another_model (frozen 0)
                  (serving example_catalog))
           "github/openai/gpt-4.1" fresh_provider start
           ["github/meta/llama-3.3-70b-instruct";
            "github/mistral-ai/mistral-large-2411"]
           warm_provider {| ticks := 2; fetches := 1 |} eq_refl).
  by left.
Defined.

Lemma provider_state_invariant_witness :
  get_available_models (frozen 1000) (λ _, NullBody) false warm_provider start
  = (Raise TypeError,
     {| api_key := "test-token";
        _models_cache := None;
        _cache_timestamp := Some 1000 |},
     {| ticks := 1; fetches := 1 |}) ∧
  stamped (get_fallback_models (frozen 0) (serving example_catalog)
             "github/openai/gpt-4.1" warm_provider start).1.2.
Proof.
  split.
  - destruct (provider_state_invariant (frozen 1000) (λ _, NullBody))
      as (_ & _ & Hnull & _).
    apply (Hnull false warm_provider start); reflexivity.
  - destruct (provider_state_invariant (frozen 0) (serving example_catalog))
      as (_ & _ & _ & Hkept & _).
    apply (Hkept false "low" "github/openai/gpt-4.1" warm_provider start).
    intros _. by eexists.
Defined.

Lemma one_request_at_most_witness :
  ticks (get_available_models (frozen 0) down false warm_provider start).2
  = S (ticks start).
Proof.
  exact (proj1 (one_request_at_most (frozen 0) down false warm_provider start
                  _ _ _ eq_refl)).
Defined.

Lemma mark_model_failed_resets_window_witness :
  is_model_available test_clock "github/openai/gpt-4.1"
    (mark_model_failed test_clock "github/openai/gpt-4.1"
       fresh_handler start).1.2
    {| ticks := 1; fetches := 0 |}
  = (Ok false,
     (mark_model_failed test_clock "github/openai/gpt-4.1"
        fresh_handler start).1.2,
     {| ticks := 2; fetches := 0 |}).
Proof.
  pose proof (mark_model_failed_resets_window test_clock
                "github/openai/gpt-4.1" fresh_handler start) as Hmark.
  cbn zeta in Hmark. destruct Hmark as (_ & _ & _ & _ & Hwithin).
  apply (Hwithin {| ticks := 1; fetches := 0 |}).
  vm_compute. discriminate.
Defined.

Lemma available_stays_available_witness :
  is_model_available (frozen 0) "github/openai/gpt-4.1" fresh_handler start
  = (Ok true, fresh_handler, start).
Proof.
  apply (proj1 (available_stays_available (frozen 0))). reflexivity.
Defined.

Lemma get_next_available_model_frame_witness :
  _failed_models
    (get_next_available_model (frozen 0) (serving example_catalog)
       "github/openai/gpt-4.1" cooling_handler start).1.2
  = delete "github/mistral-ai/mistral-large-2411"
      (_failed_models cooling_handler).
Proof.
  apply (get_next_available_model_frame (frozen 0) (serving example_catalog)
           "github/openai/gpt-4.1" cooling_handler start
           (Ok (Some "github/mistral-ai/mistral-large-2411")) _
           {| ticks := 3; fetches := 0 |}).
  reflexivity.
Defined.

Lemma get_github_models_for_litellm_new_key_witness :
  ∃ p',
    get_github_models_for_litellm (frozen 0) (serving example_catalog)
      "new-token" (Some warm_provider) start
    = (Ok ["github/openai/gpt-4.1"; "github/meta/llama-3.3-70b-instruct";
           "github/mistral-ai/mistral-large-2411";
           "github/openai/gpt-4o-mini"],
       Some p', {| ticks := 1; fetches := 1 |}) ∧
    api_key p' = "new-token".
Proof.
  refine (proj1 (get_github_models_for_litellm_new_key (frozen 0)
                   (serving example_catalog) "new-token" (Some warm_provider)
                   start _)).
  intros q [= <-]. by vm_compute.
Defined.

Lemma base_url_without_trailing_slash_witness : rstrip_slash "x" = "x".
Proof.
  apply (proj1 (proj2 base_url_without_trailing_slash)).
  intros t Ht. destruct t as [|c t]; [discriminate|].
  destruct t; discriminate.
Defined.

Lemma get_github_model_config_by_prefix_witness :
  get_github_model_config "anthropic/claude-3-5-sonnet" = Ok (VDict ∅).
Proof.
  apply (proj2 (proj2 get_github_model_config_by_prefix)). reflexivity.
Defined.

Lemma configure_litellm_registers_witness :
  ∃ added,
    let models :=
      [Config (github_entry "github/openai/gpt-4o" "openai/gpt-4o")] in
    let configured :=
      Some {| model_list := Some (models ++ (Config <$> added));
              github_api_base := Some "https://models.github.ai/v1" |} in
    configure_litellm_for_github
      (Some {| model_list := Some models; github_api_base := None |})
      = (true, configured) ∧
    added `sublist_of` GITHUB_MODELS_CONFIG ∧
    (∀ c n, c ∈ GITHUB_MODELS_CONFIG → c !! "model_name" = Some n →
            n ∈ registered (models ++ (Config <$> added))) ∧
    (∀ c n, c ∈ added → c !! "model_name" = Some n →
            n ∉ registered models) ∧
    configure_litellm_for_github configured = (true, configured).
Proof.
  apply (configure_litellm_registers
           [Config (github_entry "github/openai/gpt-4o" "openai/gpt-4o")]
           None).
  by repeat constructor.
Defined.

Lemma configure_litellm_meets_a_name_witness :
  configure_litellm_for_github
    (Some {| model_list := Some [Name "gpt-4"]; github_api_base := None |})
  = (false,
     Some {| model_list := Some [Name "gpt-4"]; github_api_base := None |}).
Proof.
  apply (proj1 configure_litellm_meets_a_name [] "gpt-4" [] None).
  - constructor.
  - intros Hin. inversion Hin.
Defined.

Lemma shared_objects_are_kept_witness :
  Singletons.get_rate_limit_handler "test-token"
    {| Singletons.next_object := 2;
       Singletons._github_provider := Some (0%nat, new_provider "test-token");
       Singletons._rate_limit_handler := Some (1%nat, 0%nat, ∅) |}
  = ((1%nat, 0%nat, ∅),
     {| Singletons.next_object := 2;
        Singletons._github_provider := Some (0%nat, new_provider "test-token");
        Singletons._rate_limit_handler := Some (1%nat, 0%nat, ∅) |}).
Proof.
  apply (shared_objects_are_kept "test-token" Singletons.initial).
  - apply initial_built.
  - reflexivity.
Defined.

Lemma key_change_rebuilds_witness :
  (Singletons.get_rate_limit_handler "test-token"
     (Singletons.get_github_provider "other-token" Singletons.in_use).2).1
  = (4%nat, 3%nat, ∅) ∧
  (Singletons.get_rate_limit_handler "test-token"
     (Singletons.get_github_provider "other-token" Singletons.in_use).2).1.2
  = ∅ ∧
  (Singletons.get_rate_limit_handler "test-token"
     (Singletons.get_github_provider "other-token" Singletons.in_use).2).1.1.1
  ≠ 1%nat ∧
  (Singletons.get_rate_limit_handler "test-token"
     (Singletons.get_github_provider "other-token" Singletons.in_use).2).1.1.2
  ≠ 0%nat.
Proof.
  split; [reflexivity|].
  apply (proj2 key_change_rebuilds "test-token" "other-token"
           Singletons.in_use
           (1%nat, 0%nat, {[ "github/openai/gpt-4.1" := 5 ]})
           Singletons.in_use
           (Singletons.get_github_provider "other-token"
              Singletons.in_use).1
           (Singletons.get_github_provider "other-token"
              Singletons.in_use).2
           _
           (Singletons.get_rate_limit_handler "test-token"
              (Singletons.get_github_provider "other-token"
                 Singletons.in_use).2).2).
  - split.
    + intros id p [= <- _]. cbn. lia.
    + intros id of_provider failed [= <- <- _]. cbn. lia.
  - discriminate.
  - reflexivity.
  - reflexivity.
  - reflexivity.
Defined.

Lemma no_fallback_without_another_model_witness :
  get_next_available_model (frozen 0)
    (serving [{[ "id" := "openai/gpt-4.1"; "rate_limit_tier" := "high" ]}])
    "github/openai/gpt-4.1" fresh_handler start
  = (Ok None,
     {| provider :=
          {| api_key := "test-token";
             _models_cache :=
               Some (Catalog [{[ "id" := "openai/gpt-4.1";
                                 "rate_limit_tier" := "high" ]}]);
             _cache_timestamp := Some 0 |};
        _failed_models := ∅ |},
     {| ticks := 2; fetches := 1 |}).
Proof.
  apply (proj2 (no_fallback_without_another_model (frozen 0)
                  (serving [{[ "id" := "openai/gpt-4.1";
                               "rate_limit_tier" := "high" ]}]))
           "github/openai/gpt-4.1" fresh_handler start
           {[ "id" := "openai/gpt-4.1"; "rate_limit_tier" := "high" ]} []
           {| api_key := "test-token";
              _models_cache :=
                Some (Catalog [{[ "id" := "openai/gpt-4.1";
                                  "rate_limit_tier" := "high" ]}]);
              _cache_timestamp := Some 0 |}
           {| ticks := 1; fetches := 1 |});
    [reflexivity|reflexivity|].
  repeat constructor.
Defined.

Lemma fallbacks_from_stale_snapshot_witness :
  get_fallback_models (frozen 1000) down "github/openai/gpt-4.1"
    warm_provider start
  = (Ok ["github/meta/llama-3.3-70b-instruct";
         "github/mistral-ai/mistral-large-2411"],
     warm_provider, {| ticks := 2; fetches := 2 |}).
Proof.
  etransitivity;
    [apply (fallbacks_from_stale_snapshot (frozen 1000) down "openai/gpt-4.1"
              0%nat
              {[ "id" := "openai/gpt-4.1"; "rate_limit_tier" := "high" ]}
              example_catalog warm_provider start);
       [reflexivity|reflexivity|reflexivity|by left|by left| |reflexivity]
    |reflexivity].
  apply example_catalog_identified.
Defined.
